(** * The tool registry and the dispatch facade of the Discord MCP server

    A shallow embedding of [src/registry/tool-registry.ts] (class
    [ToolRegistry]) and of [src/registry/meta-tools.ts] (the handlers of
    the meta-tools [get_tool_schema] and [execute_tool]), followed by the
    properties the specification states about them.  The other three
    meta-tools, the registration adapter ([src/registry/tool-adapter.ts]),
    the logger ([src/utils/logger.ts]) and the error utilities
    ([src/utils/errors.ts]) are embedded after them, with the properties
    their code shows.

    Conventions of the embedding:
    - a JavaScript string is a [string]; [toLowerCase] acts on the ASCII
      letters, which is exact on ASCII text;
    - a JavaScript [Map] is an insertion-ordered association list with
      unique keys ([JsMap]): [set] on a present key replaces the value in
      place, [set] on a new key appends;
    - a JavaScript value that the code treats as opaque data is a [JsVal]
      (JSON data plus [undefined]); the numbers that occur, the [limit] of
      a search among them, are integers, and a count is a [nat];
    - code that may throw returns a [Completion]; the promise of an
      [async] handler is represented by the way it settles;
    - the logger is represented by the entries the code hands to it;
    - objects mutated in place (the category records, the per-category
      name arrays) are updated in the map that holds them. *)

From Stdlib Require Import String Ascii List ZArith Lia Bool Arith.
From Stdlib Require Import Sorting.Sorted Sorting.Permutation.
Import ListNotations.
Open Scope string_scope.
Set Warnings "-register-all".

(** ** Strings *)

Module JsString.

(** [String.prototype.toLowerCase], on ASCII letters. *)
Definition lower_ascii (c : ascii) : ascii :=
  let n := nat_of_ascii c in
  if (65 <=? n)%nat && (n <=? 90)%nat then ascii_of_nat (n + 32) else c.

Fixpoint toLowerCase (s : string) : string :=
  match s with
  | EmptyString => EmptyString
  | String c rest => String (lower_ascii c) (toLowerCase rest)
  end.

(** [s.includes(pat)]: [pat] occurs in [s] as a contiguous substring. *)
Fixpoint includes (s pat : string) : bool :=
  String.prefix pat s ||
  match s with
  | EmptyString => false
  | String _ rest => includes rest pat
  end.

Fixpoint drop (n : nat) (s : string) : string :=
  match n, s with
  | O, _ => s
  | S _, EmptyString => EmptyString
  | S m, String _ rest => drop m rest
  end.

(** [s.replace(pat, "")] for a string pattern: only the first occurrence
    of [pat] is removed. *)
Fixpoint remove_first (pat s : string) : string :=
  if String.prefix pat s then drop (String.length pat) s
  else match s with
       | EmptyString => EmptyString
       | String c rest => String c (remove_first pat rest)
       end.

(** Truthiness of a string: the empty string is falsy. *)
Definition truthy (s : string) : bool :=
  match s with EmptyString => false | _ => true end.

(** Decimal rendering of an integer, as in a template literal. *)
Fixpoint digits (fuel n : nat) (acc : string) : string :=
  match fuel with
  | O => acc
  | S fuel' =>
      let acc' := String (ascii_of_nat (48 + n mod 10)) acc in
      if (n <? 10)%nat then acc' else digits fuel' (n / 10) acc'
  end.

Definition of_nat (n : nat) : string := digits (S n) n "".

Definition of_Z (z : Z) : string :=
  if (z <? 0)%Z then "-" ++ of_nat (Z.to_nat (- z)) else of_nat (Z.to_nat z).

Fixpoint join (sep : string) (l : list string) : string :=
  match l with
  | [] => ""
  | [x] => x
  | x :: rest => x ++ sep ++ join sep rest
  end.

End JsString.

(** ** Insertion-ordered maps with string keys *)

Section JsMapDef.
Context {V : Type}.

Definition JsMap := list (string * V).

Fixpoint map_get (k : string) (m : JsMap) : option V :=
    match m with
    | [] => None
    | (k', v) :: rest => if String.eqb k' k then Some v else map_get k rest
    end.

Fixpoint map_set (k : string) (v : V) (m : JsMap) : JsMap :=
    match m with
    | [] => [(k, v)]
    | (k', v') :: rest =>
        if String.eqb k' k then (k, v) :: rest
        else (k', v') :: map_set k v rest
    end.

Definition map_has (k : string) (m : JsMap) : bool :=
    match map_get k m with Some _ => true | None => false end.

Definition map_keys (m : JsMap) : list string := map fst m.
Definition map_values (m : JsMap) : list V := map snd m.
End JsMapDef.

Arguments JsMap V : clear implicits.

(** ** Opaque JavaScript data *)

Inductive JsVal : Type :=
| JUndefined
| JNull
| JBool (b : bool)
| JNum (n : Z)
| JStr (s : string)
| JArr (items : list JsVal)
| JObj (props : list (string * JsVal)).

(** A plain object literal and an [Error] instance, as far as property
    reads are concerned. *)
Definition js_Error (message : string) : JsVal :=
  JObj [("message", JStr message)].

(** Property read [v.key].  Reading a property of [undefined] or [null]
    throws a [TypeError] ([None]); a missing property reads [undefined]. *)
Definition get_prop (v : JsVal) (key : string) : option JsVal :=
  match v with
  | JUndefined | JNull => None
  | JObj props =>
      Some (match map_get key props with Some x => x | None => JUndefined end)
  | _ => Some JUndefined
  end.

(** String conversion of a value inside a template literal. *)
Fixpoint js_to_string (v : JsVal) : string :=
  match v with
  | JUndefined => "undefined"
  | JNull => "null"
  | JBool true => "true"
  | JBool false => "false"
  | JNum n => JsString.of_Z n
  | JStr s => s
  | JArr items =>
      JsString.join ","
        (map (fun x => match x with
                       | JUndefined | JNull => ""
                       | _ => js_to_string x
                       end) items)
  | JObj _ => "[object Object]"
  end.

(** ** Completions: a value, or a thrown exception *)

Inductive Completion (A : Type) : Type :=
| Normal (a : A)
| Throw (e : JsVal).
Arguments Normal {A} a.
Arguments Throw {A} e.

Definition bind {A B} (c : Completion A) (k : A -> Completion B) : Completion B :=
  match c with
  | Normal a => k a
  | Throw e => Throw e
  end.

Notation "'let*' x ':=' c 'in' k" := (bind c (fun x => k))
  (at level 10, x name, c at level 100, k at level 200).

(** The [TypeError] raised by the engine on [undefined.x] or [undefined()]. *)
Definition TypeError : JsVal := js_Error "TypeError".

Section MapM.
Context {A B : Type}.
Variable f : A -> Completion B.

(** [l.map(f)] when [f] may throw: the first exception ends the loop. *)
Fixpoint mapM (l : list A) : Completion (list B) :=
  match l with
  | [] => Normal []
  | x :: rest =>
      let* y := f x in
      let* ys := mapM rest in
      Normal (y :: ys)
  end.
End MapM.

(** ** Validation schemas, as the serializer reads them *)

(** One entry of [def.checks]: [{ kind: string; value?: unknown }]. *)
Module ZodCheck.
Record t := mk { kind : string; value : JsVal }.
End ZodCheck.

(** A [ZodType] is read only through its [_def]; every field of the
    definition but [typeName] may be absent.  [shape] and [defaultValue]
    are thunks in the source and are represented by what they return;
    [minLength] and [maxLength] are represented by the [value] they hold. *)
Module Zod.
Inductive ZodType : Type :=
  mkZodType { _def : option ZodDef }
with ZodDef : Type :=
  mkZodDef {
    typeName : string;
    description : option string;
    checks : option (list ZodCheck.t);
    values : option (list JsVal);
    innerType : option ZodType;
    shape : option (list (string * ZodType));
    type : option ZodType;
    defaultValue : option JsVal;
    options : option (list ZodType);
    minLength : option Z;
    maxLength : option Z
  }.
End Zod.

(** [Record<string, ZodType>], in the order of [Object.entries]. *)
Definition ZodSchema := list (string * Zod.ZodType).

(** ** Tool results and handlers *)

(** A content block: [{ type: "text"; text: string }]. *)
Inductive ContentBlock : Type :=
| TextContent (text : string).

Module ToolResult.
Record t := mk {
  content : list ContentBlock;
  structuredContent : option (list (string * JsVal));
  isError : option bool
}.
End ToolResult.

(** What one call [await handler(params)] can do. *)
Inductive HandlerOutcome : Type :=
| Resolves (result : ToolResult.t)
| ThrowsSync (error : JsVal)
| Rejects (error : JsVal)
| NeverSettles.

Definition ToolHandler := JsVal -> HandlerOutcome.

(** ** The registry's records *)

Module ToolInfo.
Record t := mk {
  name : string;
  title : string;
  description : string;
  category : string;
  inputSchema : ZodSchema;
  outputSchema : ZodSchema
}.
End ToolInfo.

Module ToolSummary.
Record t := mk { name : string; description : string }.
End ToolSummary.

Module CategoryInfo.
Record t := mk { name : string; description : string; toolCount : nat }.
End CategoryInfo.

Module RegisteredTool.
Record t := mk { info : ToolInfo.t; handler : ToolHandler }.
End RegisteredTool.

Record ToolRegistry := mkToolRegistry {
  tools : JsMap RegisteredTool.t;
  categories : JsMap CategoryInfo.t;
  toolsByCategory : JsMap (list string)
}.

(** ** Construction *)

Definition categoryDefs : list (string * string) :=
  [ ("messaging",
     "Send, read, edit, delete messages. Add reactions, pin/unpin messages.");
    ("channels",
     "Create, modify, delete channels. Manage text, voice, forum, stage channels and threads.");
    ("members",
     "Get member info, list members, manage nicknames, assign/remove roles.");
    ("roles",
     "Create, modify, delete roles. List roles and get role details.");
    ("server",
     "Server info, settings, audit logs, webhooks, and invites.");
    ("moderation",
     "Kick, ban, unban, timeout members. View ban list.");
    ("emojis",
     "List, create, modify, delete custom emojis.");
    ("stickers",
     "List, create, modify, delete custom stickers.");
    ("scheduled-events",
     "Create, modify, delete scheduled events. List events and attendees.");
    ("automod",
     "Create, modify, delete auto-moderation rules for content filtering.");
    ("application-commands",
     "Manage slash commands and context menu commands for the bot.") ].

Definition initializeCategories (r : ToolRegistry) : ToolRegistry :=
  fold_left
    (fun r cat =>
       mkToolRegistry
         (tools r)
         (map_set (fst cat) (CategoryInfo.mk (fst cat) (snd cat) 0) (categories r))
         (map_set (fst cat) [] (toolsByCategory r)))
    categoryDefs r.

(** [new ToolRegistry()] *)
Definition newToolRegistry : ToolRegistry :=
  initializeCategories (mkToolRegistry [] [] []).

(** The names of the predeclared categories. *)
Definition categoryNames : list string := map fst categoryDefs.

(** ** Registration *)

Definition registerTool (r : ToolRegistry)
    (name category title description : string)
    (inputSchema outputSchema : ZodSchema) (handler : ToolHandler)
  : ToolRegistry :=
  let info := ToolInfo.mk name title description category inputSchema outputSchema in
  let tools' := map_set name (RegisteredTool.mk info handler) (tools r) in
  match map_get category (toolsByCategory r) with
  | Some categoryTools =>
      let byCategory' := map_set category (categoryTools ++ [name])%list (toolsByCategory r) in
      match map_get category (categories r) with
      | Some catInfo =>
          let catInfo' :=
            CategoryInfo.mk (CategoryInfo.name catInfo)
                            (CategoryInfo.description catInfo)
                            (S (CategoryInfo.toolCount catInfo)) in
          mkToolRegistry tools' (map_set category catInfo' (categories r)) byCategory'
      | None => mkToolRegistry tools' (categories r) byCategory'
      end
  | None => mkToolRegistry tools' (categories r) (toolsByCategory r)
  end.

(** ** Queries *)

Definition listCategories (r : ToolRegistry) : list CategoryInfo.t :=
  filter (fun cat => (0 <? CategoryInfo.toolCount cat)%nat) (map_values (categories r)).

Definition listTools (r : ToolRegistry) (category : string) : list ToolSummary.t :=
  match map_get (JsString.toLowerCase category) (toolsByCategory r) with
  | None => []
  | Some toolNames =>
      map (fun name =>
             ToolSummary.mk name
               match map_get name (tools r) with
               | Some tool =>
                   let d := ToolInfo.description (RegisteredTool.info tool) in
                   if JsString.truthy d then d else ""
               | None => ""
               end)
          toolNames
  end.

Definition getToolSchema (r : ToolRegistry) (toolName : string) : option ToolInfo.t :=
  match map_get toolName (tools r) with
  | Some registered => Some (RegisteredTool.info registered)
  | None => None
  end.

Definition getHandler (r : ToolRegistry) (toolName : string) : option ToolHandler :=
  match map_get toolName (tools r) with
  | Some registered => Some (RegisteredTool.handler registered)
  | None => None
  end.

Definition hasTool (r : ToolRegistry) (toolName : string) : bool :=
  map_has toolName (tools r).

Definition getAllToolNames (r : ToolRegistry) : list string :=
  map_keys (tools r).

(** ** Keyword search *)

Module SearchHit.
Record t := mk { score : nat; tool : ToolSummary.t }.
End SearchHit.

(** The score computed by the loop body of [searchTools]. *)
Definition scoreTool (queryLower name : string) (info : ToolInfo.t) : nat :=
  (if JsString.includes (JsString.toLowerCase name) queryLower then 3 else 0) +
  (if JsString.includes (JsString.toLowerCase (ToolInfo.title info)) queryLower then 2 else 0) +
  (if JsString.includes (JsString.toLowerCase (ToolInfo.description info)) queryLower then 1 else 0).

(** The loop over [this.tools], pushing the tools of positive score. *)
Definition collectHits (queryLower : string) (m : JsMap RegisteredTool.t)
  : list SearchHit.t :=
  fold_left
    (fun results entry =>
       let name := fst entry in
       let info := RegisteredTool.info (snd entry) in
       let score := scoreTool queryLower name info in
       if (0 <? score)%nat
       then (results ++ [SearchHit.mk score
                           (ToolSummary.mk name (ToolInfo.description info))])%list
       else results)
    m [].

(** [results.sort((a, b) => b.score - a.score)]: the sort is stable, so
    hits of equal score keep their relative order. *)
Fixpoint insertHit (h : SearchHit.t) (l : list SearchHit.t) : list SearchHit.t :=
  match l with
  | [] => [h]
  | x :: rest =>
      if (SearchHit.score x <=? SearchHit.score h)%nat
      then h :: x :: rest
      else x :: insertHit h rest
  end.

Fixpoint sortHits (l : list SearchHit.t) : list SearchHit.t :=
  match l with
  | [] => []
  | h :: rest => insertHit h (sortHits rest)
  end.

(** [arr.slice(0, limit)] for an integer [limit]: a negative [limit]
    counts from the end of the array. *)
Definition slice0 {A} (limit : Z) (l : list A) : list A :=
  let len := Z.of_nat (length l) in
  let final := if (limit <? 0)%Z then Z.max (len + limit) 0 else Z.min limit len in
  firstn (Z.to_nat final) l.

(** [searchTools(query, limit = 20)]; [None] is an omitted [limit]. *)
Definition searchTools (r : ToolRegistry) (query : string) (limit : option Z)
  : list ToolSummary.t :=
  let limit := match limit with Some l => l | None => 20%Z end in
  let queryLower := JsString.toLowerCase query in
  let results := sortHits (collectHits queryLower (tools r)) in
  map SearchHit.tool (slice0 limit results).

(** ** Schema serialization *)

(** A plain object under construction: property writes are [map_set]. *)
Definition JsObject := list (string * JsVal).

(** [{ ...target, ...props }] and a run of property writes. *)
Definition assign (target props : JsObject) : JsObject :=
  fold_left (fun o p => map_set (fst p) (snd p) o) props target.

Definition orEmpty {A} (o : option (list A)) : list A :=
  match o with Some l => l | None => [] end.

(** The loop body of [handleZodString]. *)
Definition stringCheck (schema : JsObject) (check : ZodCheck.t) : JsObject :=
  let schema :=
    if String.eqb (ZodCheck.kind check) "max"
    then map_set "maxLength" (ZodCheck.value check) schema else schema in
  if String.eqb (ZodCheck.kind check) "min"
  then map_set "minLength" (ZodCheck.value check) schema else schema.

Definition handleZodString (def : Zod.ZodDef) : JsObject :=
  fold_left stringCheck (orEmpty (Zod.checks def)) [("type", JStr "string")].

(** The loop body of [handleZodNumber]. *)
Definition numberCheck (schema : JsObject) (check : ZodCheck.t) : JsObject :=
  let schema :=
    if String.eqb (ZodCheck.kind check) "int"
    then map_set "type" (JStr "integer") schema else schema in
  let schema :=
    if String.eqb (ZodCheck.kind check) "min"
    then map_set "minimum" (ZodCheck.value check) schema else schema in
  if String.eqb (ZodCheck.kind check) "max"
  then map_set "maximum" (ZodCheck.value check) schema else schema.

Definition handleZodNumber (def : Zod.ZodDef) : JsObject :=
  fold_left numberCheck (orEmpty (Zod.checks def)) [("type", JStr "number")].

(** [if (description) schema.description = description] *)
Definition describe (def : Zod.ZodDef) (schema : JsObject) : JsObject :=
  match Zod.description def with
  | Some d => if JsString.truthy d then map_set "description" (JStr d) schema else schema
  | None => schema
  end.

Section Walker.
  (** The method [zodToJsonSchema], as its helpers call it: the argument
      may be [undefined] where the source asserts it is not ([def.type!],
      [def.innerType!]), and reading [_def] then throws. *)
Variable walk : option Zod.ZodType -> Completion JsObject.

Definition handleZodArray (def : Zod.ZodDef) : Completion JsObject :=
    let* items := walk (Zod.type def) in
    let schema : JsObject := [("type", JStr "array"); ("items", JObj items)] in
    let schema :=
      match Zod.maxLength def with
      | Some v => map_set "maxItems" (JNum v) schema
      | None => schema
      end in
    let schema :=
      match Zod.minLength def with
      | Some v => map_set "minItems" (JNum v) schema
      | None => schema
      end in
    Normal schema.

Definition handleZodWrapper (def : Zod.ZodDef) (extraProps : JsObject)
    : Completion JsObject :=
    let* schema := walk (Zod.innerType def) in
    Normal (assign schema extraProps).

  (** The loop of [serializeSchema]: one property write per entry. *)
Fixpoint serializeLoop (entries : ZodSchema) (result : JsObject)
  : Completion JsObject :=
  match entries with
  | [] => Normal result
  | (key, zodType) :: rest =>
      let* lowered := walk (Some zodType) in
      serializeLoop rest (map_set key (JObj lowered) result)
  end.

Definition serializeSchemaWith (schema : ZodSchema) : Completion JsObject :=
  serializeLoop schema [].

  (** The [switch] on [typeName]. *)
Definition lowerByKind (def : Zod.ZodDef) : Completion JsObject :=
    let typeName := Zod.typeName def in
    if String.eqb typeName "ZodString" then Normal (handleZodString def)
    else if String.eqb typeName "ZodNumber" then Normal (handleZodNumber def)
    else if String.eqb typeName "ZodBoolean" then Normal [("type", JStr "boolean")]
    else if String.eqb typeName "ZodArray" then handleZodArray def
    else if String.eqb typeName "ZodObject" then
      match Zod.shape def with
      | None => Throw TypeError
      | Some shape =>
          let* properties := serializeSchemaWith shape in
          Normal [("type", JStr "object"); ("properties", JObj properties)]
      end
    else if String.eqb typeName "ZodOptional" then
      handleZodWrapper def [("optional", JBool true)]
    else if String.eqb typeName "ZodDefault" then
      match Zod.defaultValue def with
      | None => Throw TypeError
      | Some v => handleZodWrapper def [("default", v)]
      end
    else if String.eqb typeName "ZodEnum" then
      Normal [("type", JStr "string");
              ("enum", match Zod.values def with
                       | Some vs => JArr vs
                       | None => JUndefined
                       end)]
    else if String.eqb typeName "ZodUnion" then
      match Zod.options def with
      | None => Throw TypeError
      | Some opts =>
          let* lowered := mapM (fun opt => walk (Some opt)) opts in
          Normal [("oneOf", JArr (map JObj lowered))]
      end
    else if String.eqb typeName "ZodNullable" then
      handleZodWrapper def [("nullable", JBool true)]
    else
      Normal [("type",
               JStr (JsString.toLowerCase (JsString.remove_first "Zod" typeName)))].

  (** The body of [zodToJsonSchema] once [_def] has been read. *)
Definition lowerDef (def : option Zod.ZodDef) : Completion JsObject :=
    match def with
    | None => Normal [("type", JStr "unknown")]
    | Some def =>
        let* schema := lowerByKind def in
        Normal (describe def schema)
    end.
End Walker.

Fixpoint zodToJsonSchema (zodType : Zod.ZodType) : Completion JsObject :=
  lowerDef
    (fun arg => match arg with
                | Some z => zodToJsonSchema z
                | None => Throw TypeError
                end)
    (Zod._def zodType).

(** [zodToJsonSchema] at an argument that may be [undefined]. *)
Definition zodToJsonSchemaArg (arg : option Zod.ZodType) : Completion JsObject :=
  match arg with
  | Some z => zodToJsonSchema z
  | None => Throw TypeError
  end.

Definition serializeSchema (schema : ZodSchema) : Completion JsObject :=
  serializeSchemaWith zodToJsonSchemaArg schema.

(** ** The dispatch facade *)

(** A call made on the logger: level, message, metadata. *)
Inductive LogLevel : Type := LogDebug | LogInfo | LogWarn | LogError.

Record LogEntry := mkLogEntry {
  level : LogLevel;
  message : string;
  metadata : JsObject
}.

(** How the promise returned by an [async] meta-tool handler settles. *)
Inductive Settlement : Type :=
| Fulfilled (result : ToolResult.t)
| Rejected (error : JsVal)
| Pending.

Definition nl : string := String (ascii_of_nat 10) EmptyString.
Definition fence : string := "```".

Section MetaTools.
Variable registry : ToolRegistry.

  (** [JSON.stringify(value, null, 2)], a service of the host. *)
Variable JSON_stringify : JsVal -> string.

Definition notFoundText (toolName : string) : string :=
    "Tool '" ++ toolName ++
    "' not found. Use search_tools or list_tools to find valid tool names.".

  (** The handler registered as ["get_tool_schema"]. *)
Definition get_tool_schema (toolName : string) : Settlement * list LogEntry :=
    match getToolSchema registry toolName with
    | None =>
        (Fulfilled
           (ToolResult.mk [TextContent (notFoundText toolName)] None (Some true)),
         [])
    | Some schema =>
        let log := [mkLogEntry LogInfo "Got tool schema" [("toolName", JStr toolName)]] in
        match serializeSchema (ToolInfo.inputSchema schema) with
        | Throw e => (Rejected e, log)
        | Normal serializedInput =>
            match serializeSchema (ToolInfo.outputSchema schema) with
            | Throw e => (Rejected e, log)
            | Normal serializedOutput =>
                (Fulfilled
                   (ToolResult.mk
                      [TextContent
                         ("## " ++ ToolInfo.title schema ++ nl ++ nl ++
                          ToolInfo.description schema ++ nl ++ nl ++
                          "**Category:** " ++ ToolInfo.category schema ++ nl ++ nl ++
                          "**Input Parameters:**" ++ nl ++ fence ++ "json" ++ nl ++
                          JSON_stringify (JObj serializedInput) ++ nl ++ fence ++
                          nl ++ nl ++
                          "**Output:**" ++ nl ++ fence ++ "json" ++ nl ++
                          JSON_stringify (JObj serializedOutput) ++ nl ++ fence)]
                      (Some [("name", JStr (ToolInfo.name schema));
                             ("title", JStr (ToolInfo.title schema));
                             ("description", JStr (ToolInfo.description schema));
                             ("category", JStr (ToolInfo.category schema));
                             ("inputSchema", JObj serializedInput);
                             ("outputSchema", JObj serializedOutput)])
                      None),
                 log)
            end
        end
    end.

  (** The [catch] clause of [execute_tool]: both uses of the caught value
      read [error.message]. *)
Definition executeCatch (toolName : string) (error : JsVal)
    : Settlement * list LogEntry :=
    match get_prop error "message" with
    | None => (Rejected TypeError, [])
    | Some message =>
        (Fulfilled
           (ToolResult.mk
              [TextContent ("Tool execution failed: " ++ js_to_string message)]
              (Some [("success", JBool false); ("error", message)])
              (Some true)),
         [mkLogEntry LogError "Tool execution failed"
            [("toolName", JStr toolName); ("error", message)]])
    end.

  (** The handler registered as ["execute_tool"]. *)
Definition execute_tool (toolName : string) (params : JsVal)
    : Settlement * list LogEntry :=
    match getHandler registry toolName with
    | None =>
        (Fulfilled
           (ToolResult.mk
              [TextContent (notFoundText toolName)]
              (Some [("success", JBool false);
                     ("error", JStr ("Tool '" ++ toolName ++ "' not found"))])
              (Some true)),
         [])
    | Some handler =>
        let log := [mkLogEntry LogInfo "Executing tool"
                      [("toolName", JStr toolName); ("params", params)]] in
        match handler params with
        | Resolves result => (Fulfilled result, log)
        | NeverSettles => (Pending, log)
        | ThrowsSync error | Rejects error =>
            let (settled, logged) := executeCatch toolName error in
            (settled, (log ++ logged)%list)
        end
    end.
End MetaTools.

(** ** Registration traces *)

(** The arguments of one call of [registerTool]. *)
Module Registration.
Record t := mk {
  name : string;
  category : string;
  title : string;
  description : string;
  inputSchema : ZodSchema;
  outputSchema : ZodSchema;
  handler : ToolHandler
}.
End Registration.

Definition register (r : ToolRegistry) (c : Registration.t) : ToolRegistry :=
  registerTool r (Registration.name c) (Registration.category c)
    (Registration.title c) (Registration.description c)
    (Registration.inputSchema c) (Registration.outputSchema c)
    (Registration.handler c).

(** The registry after construction and the calls [calls], in order. *)
Definition run (calls : list Registration.t) : ToolRegistry :=
  fold_left register calls newToolRegistry.

(** The states a registry can be in. *)
Inductive reachable : ToolRegistry -> Prop :=
| reachable_new : reachable newToolRegistry
| reachable_register r c : reachable r -> reachable (register r c).

(** The names registered under [category], one per call, in call order. *)
Definition namesUnder (category : string) (calls : list Registration.t) : list string :=
  map Registration.name
    (filter (fun c => String.eqb (Registration.category c) category) calls).

(** The entries of the name table that carry [category]. *)
Definition entriesOf (category : string) (r : ToolRegistry) : list string :=
  map fst
    (filter (fun e => String.eqb (ToolInfo.category (RegisteredTool.info (snd e))) category)
       (tools r)).

(** ** The discovery meta-tools *)

(** A category record and a tool summary as they appear in a structured
    payload. *)
Definition categoryToJs (c : CategoryInfo.t) : JsVal :=
  JObj [("name", JStr (CategoryInfo.name c));
        ("description", JStr (CategoryInfo.description c));
        ("toolCount", JNum (Z.of_nat (CategoryInfo.toolCount c)))].

Definition summaryToJs (t : ToolSummary.t) : JsVal :=
  JObj [("name", JStr (ToolSummary.name t));
        ("description", JStr (ToolSummary.description t))].

(** The line [- **name**: description] of a tool listing. *)
Definition toolLine (t : ToolSummary.t) : string :=
  "- **" ++ ToolSummary.name t ++ "**: " ++ ToolSummary.description t.


Section DiscoveryTools.
Variable registry : ToolRegistry.

(** The handler registered as ["list_categories"]. *)
Definition list_categories : Settlement * list LogEntry :=
  let categories := listCategories registry in
  (Fulfilled
     (ToolResult.mk
        [TextContent
           ("Available categories:" ++ nl ++
            JsString.join nl
              (map (fun c =>
                      "- **" ++ CategoryInfo.name c ++ "** (" ++
                      JsString.of_nat (CategoryInfo.toolCount c) ++ " tools): " ++
                      CategoryInfo.description c)
                   categories))]
        (Some [("categories", JArr (map categoryToJs categories))])
        None),
   [mkLogEntry LogInfo "Listed categories"
      [("count", JNum (Z.of_nat (length categories)))]]).

(** The handler registered as ["list_tools"]. *)
Definition list_tools (category : string) : Settlement * list LogEntry :=
  let tools := listTools registry category in
  match tools with
  | [] =>
      let available :=
        JsString.join ", " (map CategoryInfo.name (listCategories registry)) in
      (Fulfilled
         (ToolResult.mk
            [TextContent
               ("Category '" ++ category ++
                "' not found or has no tools. Available categories: " ++ available)]
            (Some [("tools", JArr [])])
            (Some true)),
       [])
  | _ :: _ =>
      (Fulfilled
         (ToolResult.mk
            [TextContent
               ("Tools in " ++ category ++ ":" ++ nl ++
                JsString.join nl (map toolLine tools))]
            (Some [("tools", JArr (map summaryToJs tools))])
            None),
       [mkLogEntry LogInfo "Listed tools"
          [("category", JStr category);
           ("count", JNum (Z.of_nat (length tools)))]])
  end.


(** The entry [registerMetaTools] logs once the five handlers are
    registered with the server. *)
Definition registerMetaTools_log : LogEntry :=
  mkLogEntry LogInfo "Registered meta-tools for progressive disclosure"
    [("totalTools", JNum (Z.of_nat (length (getAllToolNames registry))));
     ("categories", JNum (Z.of_nat (length (listCategories registry))))].
End DiscoveryTools.

(** ** The registration adapter *)

(** The [config] argument of [RegistryAdapter.registerTool]. *)
Module ToolConfig.
Record t := mk {
  title : string;
  description : string;
  inputSchema : ZodSchema;
  outputSchema : ZodSchema
}.
End ToolConfig.

(** A [RegistryAdapter] holds a reference to the registry and a category;
    the registry it refers to is threaded through [adapterRegisterTool]. *)
Module RegistryAdapter.
Record t := mk { category : string }.
End RegistryAdapter.

(** [createRegistryAdapter(registry, category)] *)
Definition createRegistryAdapter (category : string) : RegistryAdapter.t :=
  RegistryAdapter.mk category.

(** [adapter.registerTool(name, config, handler)] *)
Definition adapterRegisterTool (a : RegistryAdapter.t) (r : ToolRegistry)
    (name : string) (config : ToolConfig.t) (handler : ToolHandler) : ToolRegistry :=
  registerTool r name (RegistryAdapter.category a)
    (ToolConfig.title config) (ToolConfig.description config)
    (ToolConfig.inputSchema config) (ToolConfig.outputSchema config) handler.

(** ** The logger *)

Inductive LogFormat : Type := FormatJson | FormatPretty.

Module Logger.
Record t := mk { level : LogLevel; format : LogFormat }.
End Logger.

(** The level as the string the source writes. *)
Definition levelName (l : LogLevel) : string :=
  match l with
  | LogDebug => "debug"
  | LogInfo => "info"
  | LogWarn => "warn"
  | LogError => "error"
  end.

(** [level.toUpperCase()] *)
Definition levelUpper (l : LogLevel) : string :=
  match l with
  | LogDebug => "DEBUG"
  | LogInfo => "INFO"
  | LogWarn => "WARN"
  | LogError => "ERROR"
  end.

Definition logLevel_eqb (a b : LogLevel) : bool :=
  match a, b with
  | LogDebug, LogDebug | LogInfo, LogInfo | LogWarn, LogWarn | LogError, LogError => true
  | _, _ => false
  end.

(** [levels.indexOf(level)] *)
Fixpoint indexOf (levels : list LogLevel) (l : LogLevel) : Z :=
  match levels with
  | [] => (-1)%Z
  | x :: rest =>
      if logLevel_eqb x l then 0%Z
      else let i := indexOf rest l in if (i <? 0)%Z then (-1)%Z else (i + 1)%Z
  end.

Definition shouldLog (lg : Logger.t) (l : LogLevel) : bool :=
  let levels := [LogDebug; LogInfo; LogWarn; LogError] in
  (indexOf levels (Logger.level lg) <=? indexOf levels l)%Z.

Section LoggerLog.
(** [JSON.stringify(value)] and [new Date().toISOString()], services of
    the host. *)
Variable JSON_stringify : JsVal -> string.
Variable timestamp : string.

(** [Logger.log]: the lines written with [console.log]. *)
Definition log (lg : Logger.t) (l : LogLevel) (message : string)
    (metadata : option JsObject) : list string :=
  if negb (shouldLog lg l) then []
  else
    let entry : JsObject :=
      assign [("timestamp", JStr timestamp);
              ("level", JStr (levelName l));
              ("message", JStr message)]
             (match metadata with Some m => m | None => [] end) in
    match Logger.format lg with
    | FormatJson => [JSON_stringify (JObj entry)]
    | FormatPretty =>
        let meta :=
          match metadata with
          | Some m => " " ++ JSON_stringify (JObj m)
          | None => ""
          end in
        ["[" ++
         js_to_string (match map_get "timestamp" entry with
                       | Some v => v
                       | None => JUndefined
                       end) ++
         "] " ++ levelUpper l ++ ": " ++ message ++ meta]
    end.

(** The console lines of the entries a meta-tool hands to the logger. *)
Definition emit (lg : Logger.t) (entries : list LogEntry) : list string :=
  flat_map (fun e => log lg (level e) (message e) (Some (metadata e))) entries.
End LoggerLog.

(** ** Error utilities *)

(** A caught value: an instance of [Error] (or of a subclass), or any
    other value. *)
Inductive Caught : Type :=
| ErrorInstance (message : string) (stack : option string)
| OtherValue (v : JsVal).

(** [getErrorMessage(error)] *)
Definition getErrorMessage (error : Caught) : string :=
  match error with
  | ErrorInstance message _ => message
  | OtherValue (JStr s) => s
  | OtherValue JNull | OtherValue JUndefined => "Unknown error"
  | OtherValue (JObj props) =>
      match map_get "message" props with
      | Some (JStr m) => m
      | _ => js_to_string (JObj props)
      end
  | OtherValue v => js_to_string v
  end.

Module ErrorDetails.
Record t := mk { message : string; stack : option string }.
End ErrorDetails.

(** [getErrorDetails(error)] *)
Definition getErrorDetails (error : Caught) : ErrorDetails.t :=
  match error with
  | ErrorInstance message stack => ErrorDetails.mk message stack
  | _ => ErrorDetails.mk (getErrorMessage error) None
  end.

(** The caught value as [execute_tool]'s [catch] clause reads it. *)
Definition caughtToJs (error : Caught) : JsVal :=
  match error with
  | ErrorInstance message stack =>
      JObj [("message", JStr message);
            ("stack", match stack with Some s => JStr s | None => JUndefined end)]
  | OtherValue v => v
  end.

(** ** Vocabulary of the properties *)

(** The [ToolInfo] that [registerTool] builds from its arguments. *)
Definition infoOf (c : Registration.t) : ToolInfo.t :=
  ToolInfo.mk (Registration.name c) (Registration.title c)
    (Registration.description c) (Registration.category c)
    (Registration.inputSchema c) (Registration.outputSchema c).

(** [catInfo.toolCount++] *)
Definition bump (info : CategoryInfo.t) : CategoryInfo.t :=
  CategoryInfo.mk (CategoryInfo.name info) (CategoryInfo.description info)
    (S (CategoryInfo.toolCount info)).

(** The description a predeclared category is constructed with. *)
Definition descriptionOf (C : string) : string :=
  match map_get C categoryDefs with Some d => d | None => "" end.

(** The category named [C] appears in the output of [listCategories]. *)
Definition listed (r : ToolRegistry) (C : string) : Prop :=
  exists info, In info (listCategories r) /\ CategoryInfo.name info = C.

(** The value carried by the last check of kind [k], if there is one. *)
Fixpoint lastValue (k : string) (checks : list ZodCheck.t) : option JsVal :=
  match checks with
  | [] => None
  | c :: rest =>
      match lastValue k rest with
      | Some v => Some v
      | None => if String.eqb (ZodCheck.kind c) k then Some (ZodCheck.value c) else None
      end
  end.

(** The kinds the walker has a case for. *)
Definition recognisedKinds : list string :=
  ["ZodString"; "ZodNumber"; "ZodBoolean"; "ZodArray"; "ZodObject";
   "ZodOptional"; "ZodDefault"; "ZodEnum"; "ZodUnion"; "ZodNullable"].

Definition b2n (b : bool) : nat := if b then 1 else 0.

(** [q] occurs in [s] as a case-insensitive substring. *)
Definition containsCI (s q : string) : bool :=
  JsString.includes (JsString.toLowerCase s) (JsString.toLowerCase q).

(** The relevance score in the words of the specification. *)
Definition relevance (Q name : string) (info : ToolInfo.t) : nat :=
  3 * b2n (containsCI name Q) +
  2 * b2n (containsCI (ToolInfo.title info) Q) +
  1 * b2n (containsCI (ToolInfo.description info) Q).

(** The scored summary of one entry of the tool table. *)
Definition hitOf (Q : string) (entry : string * RegisteredTool.t) : SearchHit.t :=
  SearchHit.mk
    (relevance Q (fst entry) (RegisteredTool.info (snd entry)))
    (ToolSummary.mk (fst entry)
       (ToolInfo.description (RegisteredTool.info (snd entry)))).

(** The test [score > 0] and the order of the ranking. *)
Definition positive (h : SearchHit.t) : bool := (0 <? SearchHit.score h)%nat.

Definition byScoreDesc (a b : SearchHit.t) : Prop :=
  SearchHit.score b <= SearchHit.score a.

(** The last call of the trace made under the name [n]. *)
Definition lastCall (n : string) (calls : list Registration.t)
  : option Registration.t :=
  find (fun c => String.eqb (Registration.name c) n) (rev calls).

(** A list of names without its repetitions, each name at the place of
    its first occurrence. *)
Fixpoint firstOccurrences (l : list string) : list string :=
  match l with
  | [] => []
  | x :: rest => x :: filter (fun y => negb (String.eqb x y)) (firstOccurrences rest)
  end.

(** [x] is none of the names [ks]. *)
Definition notIn (ks : list string) (x : string) : bool :=
  negb (existsb (String.eqb x) ks).

(** The call was made under a predeclared category. *)
Definition underPredeclared (c : Registration.t) : bool :=
  existsb (String.eqb (Registration.category c)) categoryNames.

(** The summary [searchTools] builds from an entry of the tool table. *)
Definition summaryOf (entry : string * RegisteredTool.t) : ToolSummary.t :=
  ToolSummary.mk (fst entry)
    (ToolInfo.description (RegisteredTool.info (snd entry))).

(** The result a settled promise carries, its error flag, and the
    [tools] array of its structured payload. *)
Definition errorFlagged (s : Settlement) : bool :=
  match s with
  | Fulfilled result =>
      match ToolResult.isError result with Some true => true | _ => false end
  | _ => false
  end.

Definition payloadTools (s : Settlement) : list JsVal :=
  match s with
  | Fulfilled result =>
      match ToolResult.structuredContent result with
      | Some props =>
          match map_get "tools" props with
          | Some (JArr items) => items
          | _ => []
          end
      | None => []
      end
  | _ => []
  end.

(** The position of a level in the order debug, info, warn, error. *)
Definition levelRank (l : LogLevel) : nat :=
  match l with
  | LogDebug => 0
  | LogInfo => 1
  | LogWarn => 2
  | LogError => 3
  end.

(** A lowered schema names its type, or its alternatives. *)
Definition saysWhatItIs (s : JsObject) : Prop :=
  map_get "type" s <> None \/ map_get "oneOf" s <> None.

(** The number of descriptors in a schema tree. *)
Fixpoint zodSize (z : Zod.ZodType) : nat :=
  match Zod._def z with
  | None => 0
  | Some def =>
      S (match Zod.innerType def with Some c => zodSize c | None => 0 end +
         match Zod.type def with Some c => zodSize c | None => 0 end +
         match Zod.shape def with
         | Some fields => list_sum (map (fun kv => zodSize (snd kv)) fields)
         | None => 0
         end +
         match Zod.options def with
         | Some opts => list_sum (map zodSize opts)
         | None => 0
         end)
  end.

(** A schema tree as the constructors of the validation library build
    it: arrays carry their element type, objects their shape, wrappers
    their inner type, defaults their value and unions their options, all
    well-formed in turn. *)
Fixpoint wellFormed (z : Zod.ZodType) : bool :=
  match Zod._def z with
  | None => true
  | Some def =>
      let typeName := Zod.typeName def in
      if String.eqb typeName "ZodArray" then
        match Zod.type def with Some c => wellFormed c | None => false end
      else if String.eqb typeName "ZodObject" then
        match Zod.shape def with
        | Some fields => forallb (fun kv => wellFormed (snd kv)) fields
        | None => false
        end
      else if String.eqb typeName "ZodOptional" then
        match Zod.innerType def with Some c => wellFormed c | None => false end
      else if String.eqb typeName "ZodDefault" then
        match Zod.innerType def, Zod.defaultValue def with
        | Some c, Some _ => wellFormed c
        | _, _ => false
        end
      else if String.eqb typeName "ZodUnion" then
        match Zod.options def with
        | Some opts => forallb wellFormed opts
        | None => false
        end
      else if String.eqb typeName "ZodNullable" then
        match Zod.innerType def with Some c => wellFormed c | None => false end
      else true
  end.

(** ** Sample registrations, results and schemas *)

Definition sampleHandler : ToolHandler :=
  fun _ => Resolves (ToolResult.mk [TextContent "ok"] None None).

Definition banMember : Registration.t :=
  Registration.mk "ban_member" "moderation" "Ban Member"
    "Ban a user from the server" [] [] sampleHandler.

Definition sendMessage : Registration.t :=
  Registration.mk "send_message" "messaging" "Send Message"
    "Send a message to Discord" [] [] sampleHandler.

Definition channelNotFound : ToolResult.t :=
  ToolResult.mk
    [TextContent "Channel not found: bad"]
    (Some [("success", JBool false); ("error", JStr "Channel not found: bad")])
    (Some true).

(** [z.string()] under checks, [z.array(elem).min(lo).max(hi)],
    [inner.optional()] and [z.date()], as definitions. *)
Definition zString (checks : list ZodCheck.t) : Zod.ZodType :=
  Zod.mkZodType
    (Some (Zod.mkZodDef "ZodString" None (Some checks) None None None None None
             None None None)).

Definition zArray (elem : Zod.ZodType) (lo hi : option Z) : Zod.ZodType :=
  Zod.mkZodType
    (Some (Zod.mkZodDef "ZodArray" None None None None None (Some elem) None
             None lo hi)).

Definition zOptional (inner : Zod.ZodType) (description : option string)
  : Zod.ZodType :=
  Zod.mkZodType
    (Some (Zod.mkZodDef "ZodOptional" description None None (Some inner) None None
             None None None None)).

Definition zDate : Zod.ZodType :=
  Zod.mkZodType
    (Some (Zod.mkZodDef "ZodDate" None (Some []) None None None None None None
             None None)).

Definition tagsField : Zod.ZodType := zArray (zString []) (Some 1%Z) (Some 5%Z).

(** A registration with schemas. *)
Definition describeChannel : Registration.t :=
  Registration.mk "describe_channel" "channels" "Describe Channel"
    "Describe a channel"
    [("channelId", zString []); ("tags", tagsField)]
    [("topic", zOptional (zString []) (Some "Topic"))]
    sampleHandler.

(** Two tool configurations, as a module hands them to its adapter. *)
Definition kickConfig : ToolConfig.t :=
  ToolConfig.mk "Kick Member" "Kick a member" [] [].

Definition kickRoleConfig : ToolConfig.t :=
  ToolConfig.mk "Kick Role" "Remove a role from everybody" [] [].

(** * Properties *)

(** ** Facts about insertion-ordered maps *)

Section JsMapFacts.
Context {V : Type}.
Implicit Types (m : JsMap V) (k : string) (v : V).

Lemma map_get_set_same m k v : map_get k (map_set k v m) = Some v.
  Proof.
    induction m as [|[k' v'] m IH]; simpl.
    - now rewrite String.eqb_refl.
    - destruct (String.eqb k' k) eqn:E; simpl.
      + now rewrite String.eqb_refl.
      + now rewrite E.
  Qed.

Lemma map_get_set_other m k k' v :
    k <> k' -> map_get k' (map_set k v m) = map_get k' m.
  Proof.
    intros Hne. induction m as [|[k0 v0] m IH]; simpl.
    - destruct (String.eqb_spec k k'); congruence.
    - destruct (String.eqb_spec k0 k) as [->|Hk]; simpl.
      + destruct (String.eqb_spec k k'); congruence.
      + now rewrite IH.
  Qed.

Lemma map_get_None_keys m k : map_get k m = None <-> ~ In k (map_keys m).
  Proof.
    induction m as [|[k' v'] m IH]; simpl.
    - tauto.
    - destruct (String.eqb_spec k' k) as [->|Hk].
      + split; [discriminate | intros H; exfalso; apply H; now left].
      + rewrite IH. split; [intros H [?|?]; tauto | tauto].
  Qed.

Lemma map_get_Some_keys m k v : map_get k m = Some v -> In k (map_keys m).
  Proof.
    intros H. destruct (in_dec string_dec k (map_keys m)) as [Hin|Hout]; trivial.
    apply map_get_None_keys in Hout. congruence.
  Qed.

Lemma map_keys_set_present m k v :
    In k (map_keys m) -> map_keys (map_set k v m) = map_keys m.
  Proof.
    induction m as [|[k' v'] m IH]; simpl; [tauto|].
    intros Hin. destruct (String.eqb_spec k' k) as [->|Hk]; simpl; trivial.
    f_equal. apply IH. destruct Hin; congruence.
  Qed.

Lemma map_keys_set_absent m k v :
    ~ In k (map_keys m) -> map_keys (map_set k v m) = (map_keys m ++ [k])%list.
  Proof.
    induction m as [|[k' v'] m IH]; simpl; trivial.
    intros Hout. destruct (String.eqb_spec k' k) as [->|Hk]; simpl.
    - exfalso. apply Hout. now left.
    - f_equal. apply IH. tauto.
  Qed.

Lemma map_set_keys_NoDup m k v :
    NoDup (map_keys m) -> NoDup (map_keys (map_set k v m)).
  Proof.
    intros Hnd. destruct (in_dec string_dec k (map_keys m)) as [Hin|Hout].
    - now rewrite map_keys_set_present.
    - rewrite map_keys_set_absent by trivial.
      apply NoDup_app; auto.
      + constructor; [tauto | constructor].
      + intros x Hx [<-|[]]. tauto.
  Qed.

Lemma map_get_In m k v : map_get k m = Some v -> In (k, v) m.
  Proof.
    induction m as [|[k' v'] m IH]; simpl; [discriminate|].
    destruct (String.eqb_spec k' k) as [->|Hk].
    - intros [= ->]. now left.
    - intros H. right. auto.
  Qed.

Lemma In_map_get m k v :
    NoDup (map_keys m) -> In (k, v) m -> map_get k m = Some v.
  Proof.
    induction m as [|[k' v'] m IH]; simpl; [tauto|].
    intros Hnd [Heq|Hin].
    - inversion Heq; subst. now rewrite String.eqb_refl.
    - inversion Hnd as [|? ? Hout Hnd']; subst.
      destruct (String.eqb_spec k' k) as [->|Hk].
      + exfalso. apply Hout. change (In (fst (k, v)) (map fst m)).
        now apply in_map.
      + auto.
  Qed.
End JsMapFacts.

(** ** One registration, field by field *)

Lemma register_tools r c :
  tools (register r c) =
  map_set (Registration.name c)
    (RegisteredTool.mk (infoOf c) (Registration.handler c)) (tools r).
Proof.
  unfold register, registerTool.
  destruct (map_get _ (toolsByCategory r)); [destruct (map_get _ (categories r))|];
    reflexivity.
Qed.

Lemma register_toolsByCategory r c :
  toolsByCategory (register r c) =
  match map_get (Registration.category c) (toolsByCategory r) with
  | Some names =>
      map_set (Registration.category c) (names ++ [Registration.name c])%list
        (toolsByCategory r)
  | None => toolsByCategory r
  end.
Proof.
  unfold register, registerTool.
  destruct (map_get _ (toolsByCategory r)); [destruct (map_get _ (categories r))|];
    reflexivity.
Qed.

Lemma register_categories r c :
  categories (register r c) =
  match map_get (Registration.category c) (toolsByCategory r),
        map_get (Registration.category c) (categories r) with
  | Some _, Some info => map_set (Registration.category c) (bump info) (categories r)
  | _, _ => categories r
  end.
Proof.
  unfold register, registerTool.
  destruct (map_get _ (toolsByCategory r)); [destruct (map_get _ (categories r))|];
    reflexivity.
Qed.

(** ** Traces *)

Lemma run_snoc calls c : run (calls ++ [c]) = register (run calls) c.
Proof. unfold run. now rewrite fold_left_app. Qed.

Lemma reachable_run calls : reachable (run calls).
Proof.
  induction calls as [|c calls IH] using rev_ind.
  - constructor.
  - rewrite run_snoc. now constructor.
Qed.

Lemma reachable_trace r : reachable r -> exists calls, r = run calls.
Proof.
  induction 1 as [|r c _ [calls ->]].
  - exists []. exact (eq_refl (fold_left register [] newToolRegistry)).
  - exists (calls ++ [c])%list. now rewrite run_snoc.
Qed.

Lemma namesUnder_snoc C calls c :
  namesUnder C (calls ++ [c]) =
  (namesUnder C calls ++
   if String.eqb (Registration.category c) C then [Registration.name c] else [])%list.
Proof.
  unfold namesUnder. rewrite filter_app, map_app. simpl.
  now destruct (String.eqb (Registration.category c) C).
Qed.

Lemma namesUnder_In C calls n :
  In n (namesUnder C calls) <->
  exists c, In c calls /\ Registration.name c = n /\ Registration.category c = C.
Proof.
  unfold namesUnder. rewrite in_map_iff. split.
  - intros (c & Hn & Hc). apply filter_In in Hc as [Hin Hcat].
    apply String.eqb_eq in Hcat. eauto.
  - intros (c & Hin & Hn & Hcat). exists c. split; trivial.
    apply filter_In. split; trivial. now apply String.eqb_eq.
Qed.

(** ** The category tables along a trace *)

Lemma predeclared_cases (P : string -> Prop) :
  Forall P categoryNames -> forall C, In C categoryNames -> P C.
Proof. intros H C HC. now apply (proj1 (Forall_forall P categoryNames) H). Qed.

Lemma new_index C :
  In C categoryNames ->
  map_get C (toolsByCategory newToolRegistry) = Some [] /\
  map_get C (categories newToolRegistry)
  = Some (CategoryInfo.mk C (descriptionOf C) 0).
Proof.
  revert C. apply predeclared_cases.
  repeat constructor.
Qed.

Lemma run_keys calls :
  map_keys (categories (run calls)) = categoryNames /\
  map_keys (toolsByCategory (run calls)) = categoryNames.
Proof.
  induction calls as [|c calls [IHc IHt]] using rev_ind.
  - split; reflexivity.
  - rewrite run_snoc, register_categories, register_toolsByCategory.
    destruct (map_get _ (toolsByCategory (run calls))) as [names|] eqn:Et.
    + apply map_get_Some_keys in Et as Hin.
      split; [|now rewrite map_keys_set_present].
      destruct (map_get _ (categories (run calls))) as [info|] eqn:Ec; trivial.
      apply map_get_Some_keys in Ec. now rewrite map_keys_set_present.
    + now split.
Qed.

(** The per-category name list is the list of names registered under the
    category, and the stored count is its length. *)
Lemma run_index calls C :
  In C categoryNames ->
  map_get C (toolsByCategory (run calls)) = Some (namesUnder C calls) /\
  map_get C (categories (run calls))
  = Some (CategoryInfo.mk C (descriptionOf C) (length (namesUnder C calls))).
Proof.
  intros HC. induction calls as [|c calls [IHt IHc]] using rev_ind.
  - now apply new_index.
  - rewrite run_snoc, register_categories, register_toolsByCategory, namesUnder_snoc.
    destruct (String.eqb_spec (Registration.category c) C) as [->|Hne].
    + rewrite IHt, IHc. cbv beta iota.
      rewrite !map_get_set_same. split; trivial.
      unfold bump. simpl. rewrite length_app. simpl.
      now rewrite Nat.add_1_r.
    + rewrite app_nil_r.
      destruct (map_get (Registration.category c) (toolsByCategory (run calls)))
        as [names|].
      * rewrite map_get_set_other by trivial. split; trivial.
        destruct (map_get (Registration.category c) (categories (run calls)));
          trivial.
        now rewrite map_get_set_other.
      * now split.
Qed.

Lemma run_index_absent calls C :
  ~ In C categoryNames ->
  map_get C (toolsByCategory (run calls)) = None /\
  map_get C (categories (run calls)) = None.
Proof.
  intros HC. destruct (run_keys calls) as [Hc Ht].
  split; apply map_get_None_keys; congruence.
Qed.

(** ** The name table along a trace *)

Lemma run_tools_NoDup calls : NoDup (map_keys (tools (run calls))).
Proof.
  induction calls as [|c calls IH] using rev_ind.
  - constructor.
  - rewrite run_snoc, register_tools. now apply map_set_keys_NoDup.
Qed.

(** Every entry of the name table records some call of the trace. *)
Lemma run_tools_origin calls n t :
  map_get n (tools (run calls)) = Some t ->
  exists c, In c calls /\ Registration.name c = n /\
            t = RegisteredTool.mk (infoOf c) (Registration.handler c).
Proof.
  revert t. induction calls as [|c calls IH] using rev_ind; intros t.
  - discriminate.
  - rewrite run_snoc, register_tools.
    destruct (string_dec (Registration.name c) n) as [<-|Hne].
    + rewrite map_get_set_same. intros [= <-].
      exists c. split; [apply in_or_app; right; now left | now split].
    + rewrite map_get_set_other by trivial. intros Ht.
      destruct (IH _ Ht) as (c' & Hin & Hn & Heq).
      exists c'. split; [apply in_or_app; now left | now split].
Qed.

(** ** Category counts and category listing *)

Lemma listed_iff calls C :
  listed (run calls) C <->
  exists info, map_get C (categories (run calls)) = Some info /\
               0 < CategoryInfo.toolCount info.
Proof.
  unfold listed, listCategories, map_values.
  assert (Hnd : NoDup (map_keys (categories (run calls))))
    by (rewrite (proj1 (run_keys calls)); repeat constructor; simpl;
        intuition discriminate).
  assert (Hname : forall k info,
             map_get k (categories (run calls)) = Some info ->
             CategoryInfo.name info = k).
  { intros k info Hget.
    destruct (in_dec string_dec k categoryNames) as [Hin|Hout].
    - destruct (run_index calls k Hin) as [_ Hc]. rewrite Hc in Hget.
      now injection Hget as <-.
    - destruct (run_index_absent calls k Hout) as [_ Hc]. congruence. }
  split.
  - intros (info & Hin & Hn). apply filter_In in Hin as [Hin Hpos].
    apply in_map_iff in Hin as ([k info'] & Heq & Hin). simpl in Heq. subst info'.
    apply In_map_get in Hin; trivial.
    exists info. rewrite <- Hn, (Hname _ _ Hin). split; trivial.
    now apply Nat.ltb_lt.
  - intros (info & Hget & Hpos). exists info. split; [|eauto].
    apply filter_In. split; [|now apply Nat.ltb_lt].
    apply in_map_iff. exists (C, info). split; trivial. now apply map_get_In.
Qed.

(** C10: for every predeclared category and every reachable registry, the
    stored toolCount equals the length of the category's name list: both
    are zero at construction, and each registerTool call either appends
    one name and adds one to the count, or changes neither. *)
Theorem toolCount_is_index_length r C :
  reachable r -> In C categoryNames ->
  (exists info0,
      map_get C (categories newToolRegistry) = Some info0 /\
      CategoryInfo.toolCount info0 = 0 /\
      map_get C (toolsByCategory newToolRegistry) = Some []) /\
  (exists info names,
      map_get C (categories r) = Some info /\
      map_get C (toolsByCategory r) = Some names /\
      CategoryInfo.toolCount info = length names /\
      forall c, exists info' names',
        map_get C (categories (register r c)) = Some info' /\
        map_get C (toolsByCategory (register r c)) = Some names' /\
        ((names' = (names ++ [Registration.name c])%list /\
          CategoryInfo.toolCount info' = S (CategoryInfo.toolCount info)) \/
         (names' = names /\
          CategoryInfo.toolCount info' = CategoryInfo.toolCount info))).
Proof.
  intros Hr HC. split.
  - destruct (new_index C HC) as [Ht Hc].
    exists (CategoryInfo.mk C (descriptionOf C) 0).
    split; [exact Hc | split; [reflexivity | exact Ht]].
  - apply reachable_trace in Hr as [calls ->].
    destruct (run_index calls C HC) as [Ht Hc].
    do 2 eexists. rewrite Hc, Ht. repeat split.
    intros c. rewrite <- run_snoc.
    destruct (run_index (calls ++ [c]) C HC) as [Ht' Hc'].
    do 2 eexists. rewrite Hc', Ht'. repeat split.
    rewrite namesUnder_snoc. simpl.
    destruct (String.eqb (Registration.category c) C).
    + left. split; trivial. rewrite length_app. simpl. lia.
    + right. now rewrite app_nil_r.
Qed.

Lemma toolCount_is_index_length_witness :
  exists info names,
    map_get "moderation" (categories (run [banMember])) = Some info /\
    map_get "moderation" (toolsByCategory (run [banMember])) = Some names /\
    CategoryInfo.toolCount info = length names.
Proof.
  destruct (toolCount_is_index_length (run [banMember]) "moderation")
    as [_ (info & names & Hc & Ht & Hlen & _)].
  - apply (reachable_register _ banMember reachable_new).
  - simpl. tauto.
  - exists info, names. auto.
Defined.

(** C5: along every trace of registrations, a predeclared category is
    listed by listCategories exactly when its toolCount is positive, that
    is, exactly when some call registered a tool under that very name; a
    name that was not predeclared is never listed. *)
Theorem listCategories_visibility calls C :
  (In C categoryNames ->
   (listed (run calls) C <->
    exists info, map_get C (categories (run calls)) = Some info /\
                 0 < CategoryInfo.toolCount info) /\
   (listed (run calls) C <->
    exists c, In c calls /\ Registration.category c = C)) /\
  (~ In C categoryNames -> ~ listed (run calls) C).
Proof.
  split.
  - intros HC. split; [apply listed_iff|].
    rewrite listed_iff. destruct (run_index calls C HC) as [_ Hc].
    rewrite Hc. split.
    + intros (info & [= <-] & Hpos). simpl in Hpos.
      destruct (namesUnder C calls) as [|n ns] eqn:E; [inversion Hpos|].
      assert (Hn : In n (namesUnder C calls)) by (rewrite E; now left).
      apply namesUnder_In in Hn as (c & Hin & _ & Hcat). eauto.
    + intros (c & Hin & Hcat). eexists. split; [reflexivity|]. simpl.
      assert (Hn : In (Registration.name c) (namesUnder C calls))
        by (apply namesUnder_In; eauto).
      destruct (namesUnder C calls); [destruct Hn | simpl; lia].
  - intros HC. rewrite listed_iff.
    destruct (run_index_absent calls C HC) as [_ Hc]. rewrite Hc.
    intros (info & Hget & _). discriminate.
Qed.

Lemma listCategories_visibility_witness :
  (listed (run [sendMessage]) "messaging" <->
   exists c, In c [sendMessage] /\ Registration.category c = "messaging") /\
  ~ listed (run [sendMessage]) "utilities".
Proof.
  destruct (listCategories_visibility [sendMessage] "messaging") as [Hpre _].
  destruct (listCategories_visibility [sendMessage] "utilities") as [_ Hnot].
  split.
  - apply Hpre. simpl. tauto.
  - apply Hnot. simpl. intuition discriminate.
Defined.

(** ** Registration followed by lookup *)

Lemma registerTool_register r N Cat T D I O h :
  registerTool r N Cat T D I O h = register r (Registration.mk N Cat T D I O h).
Proof. reflexivity. Qed.

Lemma getToolSchema_register r c :
  getToolSchema (register r c) (Registration.name c) = Some (infoOf c).
Proof. unfold getToolSchema. now rewrite register_tools, map_get_set_same. Qed.

Lemma getHandler_register r c :
  getHandler (register r c) (Registration.name c) = Some (Registration.handler c).
Proof. unfold getHandler. now rewrite register_tools, map_get_set_same. Qed.

Lemma predeclared_lowercase C :
  In C categoryNames -> JsString.toLowerCase C = C.
Proof. revert C. apply predeclared_cases. repeat constructor. Qed.

(** A name in the category's list is a name in the listing. *)
Lemma listTools_names r category names n :
  map_get (JsString.toLowerCase category) (toolsByCategory r) = Some names ->
  In n names ->
  exists e, In e (listTools r category) /\ ToolSummary.name e = n.
Proof.
  intros Hget Hin. unfold listTools. rewrite Hget.
  eexists. split; [apply in_map, Hin | reflexivity].
Qed.

(** C6, as the code has it: after registerTool with name N and category
    Cat, getToolSchema(N) is the entry just registered, with category Cat,
    whatever the registry and the category were; and when Cat is one of
    the predeclared categories of a reachable registry, listTools(Cat)
    contains an entry named N. *)
Theorem registerTool_roundtrip r N Cat T D I O h :
  getToolSchema (registerTool r N Cat T D I O h) N
  = Some (ToolInfo.mk N T D Cat I O) /\
  (reachable r -> In Cat categoryNames ->
   exists e, In e (listTools (registerTool r N Cat T D I O h) Cat) /\
             ToolSummary.name e = N).
Proof.
  rewrite registerTool_register. split.
  - apply (getToolSchema_register r (Registration.mk N Cat T D I O h)).
  - intros Hr HC. apply reachable_trace in Hr as [calls ->].
    rewrite <- run_snoc.
    destruct (run_index (calls ++ [Registration.mk N Cat T D I O h]) Cat HC)
      as [Ht _].
    apply listTools_names with (names := namesUnder Cat
      (calls ++ [Registration.mk N Cat T D I O h])).
    + now rewrite predeclared_lowercase.
    + rewrite namesUnder_snoc. simpl. rewrite String.eqb_refl.
      apply in_or_app. right. now left.
Qed.

Lemma registerTool_roundtrip_witness :
  exists e,
    In e (listTools (registerTool (run [sendMessage]) "ban_member" "moderation"
                       "Ban Member" "Ban a member" [] [] sampleHandler)
            "moderation") /\
    ToolSummary.name e = "ban_member".
Proof.
  apply (registerTool_roundtrip (run [sendMessage]) "ban_member" "moderation"
           "Ban Member" "Ban a member" [] [] sampleHandler).
  - apply (reachable_register _ sendMessage reachable_new).
  - simpl. tauto.
Defined.

(** C6 as stated fails for a category that was not predeclared: the tool
    is stored in the name table, and listTools of its category is empty. *)
Lemma registerTool_roundtrip_counterexample :
  listTools (registerTool newToolRegistry "purge_cache" "utilities" "Purge"
               "Purge the cache" [] [] sampleHandler) "utilities" = [] /\
  ~ (exists e,
        In e (listTools (registerTool newToolRegistry "purge_cache" "utilities"
                           "Purge" "Purge the cache" [] [] sampleHandler)
                "utilities") /\
        ToolSummary.name e = "purge_cache").
Proof.
  split; [reflexivity|].
  intros (e & Hin & _). exact Hin.
Qed.

(** The same happens for a predeclared category written with a capital:
    the query is lowercased, the registration is not. *)
Example registerTool_capitalised_category :
  listTools (registerTool newToolRegistry "ban_member" "Moderation" "Ban Member"
               "Ban a member" [] [] sampleHandler) "Moderation" = [] /\
  hasTool (registerTool newToolRegistry "ban_member" "Moderation" "Ban Member"
             "Ban a member" [] [] sampleHandler) "ban_member" = true.
Proof. split; reflexivity. Qed.

(** ** Duplicate names *)

Lemma NoDup_keys_filter {V} (p : string * V -> bool) (m : JsMap V) :
  NoDup (map_keys m) -> NoDup (map_keys (filter p m)).
Proof.
  unfold map_keys. induction m as [|e m IH]; simpl; intros Hnd; [constructor|].
  inversion Hnd as [|? ? Hout Hnd']; subst.
  destruct (p e); simpl; auto.
  constructor; auto.
  intros Hin. apply Hout. apply in_map_iff in Hin as (e' & He & Hin).
  apply filter_In in Hin as [Hin _]. rewrite <- He. now apply in_map.
Qed.

(** The entries the name table holds for a category are among the names
    registered under it, each once. *)
Lemma entriesOf_NoDup calls C : NoDup (entriesOf C (run calls)).
Proof. apply NoDup_keys_filter, run_tools_NoDup. Qed.

Lemma entriesOf_incl calls C : incl (entriesOf C (run calls)) (namesUnder C calls).
Proof.
  intros n Hin. unfold entriesOf in Hin.
  apply in_map_iff in Hin as ([k t] & Hk & Hin). simpl in Hk. subst k.
  apply filter_In in Hin as [Hin Hcat]. simpl in Hcat.
  apply String.eqb_eq in Hcat.
  apply In_map_get in Hin; [|apply run_tools_NoDup].
  apply run_tools_origin in Hin as (c & Hc & Hn & ->).
  apply namesUnder_In. exists c. auto.
Qed.

Lemma entriesOf_le_names calls C :
  length (entriesOf C (run calls)) <= length (namesUnder C calls).
Proof. apply NoDup_incl_length; [apply entriesOf_NoDup | apply entriesOf_incl]. Qed.

(** A name that some call registered is a key of the name table. *)
Lemma run_tools_registered calls c :
  In c calls -> In (Registration.name c) (map_keys (tools (run calls))).
Proof.
  intros Hin.
  destruct (map_get (Registration.name c) (tools (run calls))) as [t|] eqn:E;
    [now apply map_get_Some_keys in E|].
  exfalso. revert Hin E.
  induction calls as [|c0 calls IH] using rev_ind; [intros []|].
  rewrite run_snoc, register_tools. intros Hin.
  destruct (string_dec (Registration.name c0) (Registration.name c)) as [Heq|Hne].
  - rewrite Heq, map_get_set_same. discriminate.
  - rewrite map_get_set_other by trivial.
    apply in_app_or in Hin as [Hin|[->|[]]]; [auto | congruence].
Qed.

(** C7: when a name N was already registered under a predeclared category
    C, registering N under C again replaces the entry and the handler in
    the name table (no key is added), appends a second occurrence of N to
    the name list of C and adds one to the toolCount of C, which then
    exceeds the number of entries the name table holds for C. *)
Theorem duplicate_registration calls c1 N C T D I O h :
  In C categoryNames ->
  In c1 calls -> Registration.name c1 = N -> Registration.category c1 = C ->
  let r := run calls in
  let r' := registerTool r N C T D I O h in
  getToolSchema r' N = Some (ToolInfo.mk N T D C I O) /\
  getHandler r' N = Some h /\
  map_keys (tools r') = map_keys (tools r) /\
  exists names info info',
    map_get C (toolsByCategory r) = Some names /\
    In N names /\
    map_get C (toolsByCategory r') = Some (names ++ [N])%list /\
    map_get C (categories r) = Some info /\
    map_get C (categories r') = Some info' /\
    CategoryInfo.toolCount info' = S (CategoryInfo.toolCount info) /\
    length (entriesOf C r') < CategoryInfo.toolCount info'.
Proof.
  intros HC Hin Hn Hcat r r'. subst r r'.
  rewrite registerTool_register.
  set (c2 := Registration.mk N C T D I O h).
  assert (Hnames : In N (namesUnder C calls))
    by (apply namesUnder_In; eauto).
  split; [apply (getToolSchema_register (run calls) c2)|].
  split; [apply (getHandler_register (run calls) c2)|].
  split.
  - rewrite register_tools. apply map_keys_set_present.
    simpl. rewrite <- Hn. now apply run_tools_registered.
  - destruct (run_index calls C HC) as [Ht Hc].
    rewrite <- run_snoc.
    destruct (run_index (calls ++ [c2]) C HC) as [Ht' Hc'].
    assert (Hsnoc : namesUnder C (calls ++ [c2]) = (namesUnder C calls ++ [N])%list)
      by (rewrite namesUnder_snoc; simpl; now rewrite String.eqb_refl).
    rewrite Hsnoc in Ht', Hc'.
    do 3 eexists. rewrite Ht, Ht', Hc, Hc'. repeat split; trivial.
    + simpl. rewrite length_app. simpl. lia.
    + simpl. rewrite length_app. simpl.
      assert (Hle : length (entriesOf C (run (calls ++ [c2])))
                    <= length (namesUnder C calls)).
      { apply NoDup_incl_length; [apply entriesOf_NoDup|].
        intros n Hn'. apply entriesOf_incl in Hn'. rewrite Hsnoc in Hn'.
        apply in_app_or in Hn' as [Hn'|[<-|[]]]; trivial. }
      lia.
Qed.

Lemma duplicate_registration_witness :
  let r' := registerTool (run [banMember]) "ban_member" "moderation"
              "Ban" "Ban again" [] [] sampleHandler in
  getToolSchema r' "ban_member"
  = Some (ToolInfo.mk "ban_member" "Ban" "Ban again" "moderation" [] []) /\
  map_get "moderation" (toolsByCategory r') = Some ["ban_member"; "ban_member"] /\
  length (entriesOf "moderation" r') = 1.
Proof.
  destruct (duplicate_registration [banMember] banMember "ban_member" "moderation"
              "Ban" "Ban again" [] [] sampleHandler)
    as (Hschema & _ & _ & _).
  - simpl. tauto.
  - now left.
  - reflexivity.
  - reflexivity.
  - split; [exact Hschema | split; reflexivity].
Defined.

(** ** Listing by category *)

(** C8: listTools depends on its argument only through the lowercase form
    (so "MODERATION" and "moderation" list the same tools), a category
    whose lowercase form is no key of the category index lists nothing,
    and once "ban_member" is registered under "moderation",
    listTools("MODERATION") contains an entry named "ban_member". *)
Theorem listTools_case_insensitive :
  (forall r c1 c2,
      JsString.toLowerCase c1 = JsString.toLowerCase c2 ->
      listTools r c1 = listTools r c2) /\
  (forall r, listTools r "MODERATION" = listTools r "moderation") /\
  (forall r c,
      map_get (JsString.toLowerCase c) (toolsByCategory r) = None ->
      listTools r c = []) /\
  (forall calls c,
      In c calls ->
      Registration.name c = "ban_member" ->
      Registration.category c = "moderation" ->
      exists e, In e (listTools (run calls) "MODERATION") /\
                ToolSummary.name e = "ban_member").
Proof.
  repeat split.
  - intros r c1 c2 H. unfold listTools. now rewrite H.
  - intros r c H. unfold listTools. now rewrite H.
  - intros calls c Hin Hn Hcat.
    apply listTools_names with (names := namesUnder "moderation" calls).
    + apply (run_index calls "moderation"). simpl. tauto.
    + apply namesUnder_In. eauto.
Qed.

Lemma listTools_case_insensitive_witness :
  listTools (run [banMember]) "Moderation" = listTools (run [banMember]) "moderation" /\
  listTools (run [banMember]) "Reports" = [] /\
  exists e, In e (listTools (run [banMember; sendMessage]) "MODERATION") /\
            ToolSummary.name e = "ban_member".
Proof.
  destruct listTools_case_insensitive as (Hlow & _ & Hnone & Hban).
  split; [|split].
  - apply Hlow. reflexivity.
  - apply Hnone. reflexivity.
  - apply (Hban [banMember; sendMessage] banMember); [now left | reflexivity..].
Defined.

(** ** Dispatch *)

(** C3: when the handler registered under N resolves to a result R on the
    parameter bag P, execute_tool(N, P) is fulfilled with R itself,
    whatever R's content, structured content and error flag are; the only
    other effect is the log entry written before the call. *)
Theorem execute_tool_passthrough r N P h R :
  getHandler r N = Some h ->
  h P = Resolves R ->
  execute_tool r N P
  = (Fulfilled R,
     [mkLogEntry LogInfo "Executing tool" [("toolName", JStr N); ("params", P)]]).
Proof.
  intros Hh HR. unfold execute_tool. now rewrite Hh, HR.
Qed.

Lemma execute_tool_passthrough_witness :
  fst (execute_tool
         (registerTool newToolRegistry "send_message" "messaging" "Send Message"
            "Send a message" [] [] (fun _ => Resolves channelNotFound))
         "send_message" (JObj [("channelId", JStr "bad")]))
  = Fulfilled channelNotFound.
Proof.
  rewrite (execute_tool_passthrough _ "send_message" _
             (fun _ => Resolves channelNotFound) channelNotFound);
    reflexivity.
Defined.

(** C4: for a name that is no key of the tool table, get_tool_schema and
    execute_tool are both fulfilled (neither throws) with an error-flagged
    result whose text points to search_tools and list_tools; the result of
    execute_tool also carries {success: false, error: <message>}. *)
Theorem unknown_tool_name r (stringify : JsVal -> string) N P :
  map_get N (tools r) = None ->
  get_tool_schema r stringify N
  = (Fulfilled
       (ToolResult.mk
          [TextContent
             ("Tool '" ++ N ++
              "' not found. Use search_tools or list_tools to find valid tool names.")]
          None (Some true)),
     []) /\
  execute_tool r N P
  = (Fulfilled
       (ToolResult.mk
          [TextContent
             ("Tool '" ++ N ++
              "' not found. Use search_tools or list_tools to find valid tool names.")]
          (Some [("success", JBool false);
                 ("error", JStr ("Tool '" ++ N ++ "' not found"))])
          (Some true)),
     []).
Proof.
  intros Hnone. unfold get_tool_schema, execute_tool, getToolSchema, getHandler.
  now rewrite Hnone.
Qed.

Lemma unknown_tool_name_witness :
  ToolResult.isError
    (match fst (execute_tool (run [sendMessage]) "does_not_exist" (JObj [])) with
     | Fulfilled result => result
     | _ => ToolResult.mk [] None None
     end) = Some true.
Proof.
  destruct (unknown_tool_name (run [sendMessage]) js_to_string "does_not_exist"
              (JObj []) eq_refl) as [_ Hexec].
  rewrite Hexec. reflexivity.
Defined.

(** What the [catch] clause does with a caught value that has a readable
    [message]: the fault is contained. *)
Lemma execute_tool_contains_fault r N P h e m :
  getHandler r N = Some h ->
  h P = ThrowsSync e \/ h P = Rejects e ->
  get_prop e "message" = Some m ->
  fst (execute_tool r N P)
  = Fulfilled
      (ToolResult.mk
         [TextContent ("Tool execution failed: " ++ js_to_string m)]
         (Some [("success", JBool false); ("error", m)])
         (Some true)).
Proof.
  intros Hh [He|He] Hm; unfold execute_tool, executeCatch;
    now rewrite Hh, He, Hm.
Qed.

(** A caught [null] or [undefined] has no [message] to read: the read
    throws inside the [catch] clause and the promise is rejected. *)
Lemma execute_tool_nullish_fault r N P h e :
  getHandler r N = Some h ->
  h P = ThrowsSync e \/ h P = Rejects e ->
  e = JNull \/ e = JUndefined ->
  fst (execute_tool r N P) = Rejected TypeError.
Proof.
  intros Hh [He|He] [->| ->]; unfold execute_tool, executeCatch;
    now rewrite Hh, He.
Qed.

(** C1, at a handler whose promise is rejected with [null]: execute_tool
    does not return an error-flagged result, its own promise is rejected;
    only the entry written before the call is logged. *)
Theorem execute_tool_rejects_on_null_fault :
  execute_tool
    (registerTool newToolRegistry "send_message" "messaging" "Send Message"
       "Send a message" [] [] (fun _ => Rejects JNull))
    "send_message" (JObj [("channelId", JStr "123")])
  = (Rejected TypeError,
     [mkLogEntry LogInfo "Executing tool"
        [("toolName", JStr "send_message");
         ("params", JObj [("channelId", JStr "123")])]]).
Proof. reflexivity. Qed.

(** An [Error] thrown by the handler is contained, as the specification
    asks. *)
Example execute_tool_contains_Error :
  fst (execute_tool
         (registerTool newToolRegistry "send_message" "messaging" "Send Message"
            "Send a message" [] [] (fun _ => ThrowsSync (js_Error "socket closed")))
         "send_message" (JObj []))
  = Fulfilled
      (ToolResult.mk
         [TextContent "Tool execution failed: socket closed"]
         (Some [("success", JBool false); ("error", JStr "socket closed")])
         (Some true)).
Proof. reflexivity. Qed.

(** ** Schema serialization *)

Ltac map_simpl :=
  repeat (rewrite map_get_set_same || rewrite map_get_set_other by discriminate).

Lemma zodToJsonSchema_unfold z :
  zodToJsonSchema z = lowerDef zodToJsonSchemaArg (Zod._def z).
Proof. destruct z; reflexivity. Qed.

Lemma zodToJsonSchema_def z def :
  Zod._def z = Some def ->
  zodToJsonSchema z =
  let* schema := lowerByKind zodToJsonSchemaArg def in Normal (describe def schema).
Proof. intros H. rewrite zodToJsonSchema_unfold, H. reflexivity. Qed.

Lemma describe_other def schema k :
  k <> "description" -> map_get k (describe def schema) = map_get k schema.
Proof.
  intros Hk. unfold describe.
  destruct (Zod.description def) as [d|]; trivial.
  destruct (JsString.truthy d); trivial.
  rewrite map_get_set_other; congruence.
Qed.

Lemma stringCheck_type s c : map_get "type" (stringCheck s c) = map_get "type" s.
Proof.
  unfold stringCheck.
  destruct (String.eqb (ZodCheck.kind c) "max"), (String.eqb (ZodCheck.kind c) "min");
    now map_simpl.
Qed.

Lemma stringCheck_maxLength s c :
  map_get "maxLength" (stringCheck s c) =
  if String.eqb (ZodCheck.kind c) "max" then Some (ZodCheck.value c)
  else map_get "maxLength" s.
Proof.
  unfold stringCheck.
  destruct (String.eqb (ZodCheck.kind c) "max"), (String.eqb (ZodCheck.kind c) "min");
    now map_simpl.
Qed.

Lemma stringCheck_minLength s c :
  map_get "minLength" (stringCheck s c) =
  if String.eqb (ZodCheck.kind c) "min" then Some (ZodCheck.value c)
  else map_get "minLength" s.
Proof.
  unfold stringCheck.
  destruct (String.eqb (ZodCheck.kind c) "max"), (String.eqb (ZodCheck.kind c) "min");
    now map_simpl.
Qed.

Lemma fold_stringCheck checks : forall s0,
  let s := fold_left stringCheck checks s0 in
  map_get "type" s = map_get "type" s0 /\
  map_get "maxLength" s =
    match lastValue "max" checks with
    | Some v => Some v
    | None => map_get "maxLength" s0
    end /\
  map_get "minLength" s =
    match lastValue "min" checks with
    | Some v => Some v
    | None => map_get "minLength" s0
    end.
Proof.
  induction checks as [|c rest IH]; intros s0; simpl; [tauto|].
  destruct (IH (stringCheck s0 c)) as (Ht & Hmax & Hmin).
  rewrite Ht, Hmax, Hmin, stringCheck_type, stringCheck_maxLength,
    stringCheck_minLength.
  repeat split.
  - destruct (lastValue "max" rest); trivial.
    now destruct (String.eqb (ZodCheck.kind c) "max").
  - destruct (lastValue "min" rest); trivial.
    now destruct (String.eqb (ZodCheck.kind c) "min").
Qed.

Lemma numberCheck_type s c :
  map_get "type" (numberCheck s c) =
  if String.eqb (ZodCheck.kind c) "int" then Some (JStr "integer")
  else map_get "type" s.
Proof.
  unfold numberCheck.
  destruct (String.eqb (ZodCheck.kind c) "int"), (String.eqb (ZodCheck.kind c) "min"),
    (String.eqb (ZodCheck.kind c) "max"); now map_simpl.
Qed.

Lemma numberCheck_minimum s c :
  map_get "minimum" (numberCheck s c) =
  if String.eqb (ZodCheck.kind c) "min" then Some (ZodCheck.value c)
  else map_get "minimum" s.
Proof.
  unfold numberCheck.
  destruct (String.eqb (ZodCheck.kind c) "int"), (String.eqb (ZodCheck.kind c) "min"),
    (String.eqb (ZodCheck.kind c) "max"); now map_simpl.
Qed.

Lemma numberCheck_maximum s c :
  map_get "maximum" (numberCheck s c) =
  if String.eqb (ZodCheck.kind c) "max" then Some (ZodCheck.value c)
  else map_get "maximum" s.
Proof.
  unfold numberCheck.
  destruct (String.eqb (ZodCheck.kind c) "int"), (String.eqb (ZodCheck.kind c) "min"),
    (String.eqb (ZodCheck.kind c) "max"); now map_simpl.
Qed.

Lemma fold_numberCheck checks : forall s0,
  let s := fold_left numberCheck checks s0 in
  map_get "type" s =
    (if existsb (fun c => String.eqb (ZodCheck.kind c) "int") checks
     then Some (JStr "integer") else map_get "type" s0) /\
  map_get "minimum" s =
    match lastValue "min" checks with
    | Some v => Some v
    | None => map_get "minimum" s0
    end /\
  map_get "maximum" s =
    match lastValue "max" checks with
    | Some v => Some v
    | None => map_get "maximum" s0
    end.
Proof.
  induction checks as [|c rest IH]; intros s0; simpl; [tauto|].
  destruct (IH (numberCheck s0 c)) as (Ht & Hmin & Hmax).
  rewrite Ht, Hmin, Hmax, numberCheck_type, numberCheck_minimum,
    numberCheck_maximum.
  repeat split.
  - destruct (String.eqb (ZodCheck.kind c) "int"); simpl; trivial.
    now destruct (existsb _ rest).
  - destruct (lastValue "min" rest); trivial.
    now destruct (String.eqb (ZodCheck.kind c) "min").
  - destruct (lastValue "max" rest); trivial.
    now destruct (String.eqb (ZodCheck.kind c) "max").
Qed.

(** The loop of [serializeSchema]: keys it does not meet are untouched,
    keys it meets hold the lowering of their descriptor. *)
Lemma serializeLoop_spec entries : forall acc result,
  serializeLoop zodToJsonSchemaArg entries acc = Normal result ->
  (forall k, ~ In k (map fst entries) -> map_get k result = map_get k acc) /\
  (NoDup (map fst entries) ->
   forall k z, In (k, z) entries ->
     exists s, zodToJsonSchema z = Normal s /\ map_get k result = Some (JObj s)).
Proof.
  induction entries as [|[key zt] rest IH]; intros acc result; simpl.
  - intros [= <-]. split; [trivial | intros _ k z []].
  - destruct (zodToJsonSchema zt) as [lowered|e] eqn:E; simpl; [|discriminate].
    intros Hloop. destruct (IH _ _ Hloop) as [Hout Hin]. split.
    + intros k Hk. rewrite Hout by tauto.
      apply map_get_set_other. tauto.
    + intros Hnd k z [[= <- <-]|Hkz].
      * exists lowered. split; trivial.
        inversion Hnd; subst. rewrite Hout by trivial.
        apply map_get_set_same.
      * inversion Hnd; subst. now apply Hin.
Qed.

Section LowerByKind.
Variable walk : option Zod.ZodType -> Completion JsObject.
Variable def : Zod.ZodDef.

Lemma lowerByKind_string :
  Zod.typeName def = "ZodString" -> lowerByKind walk def = Normal (handleZodString def).
Proof. intros H. unfold lowerByKind. now rewrite H. Qed.

Lemma lowerByKind_number :
  Zod.typeName def = "ZodNumber" -> lowerByKind walk def = Normal (handleZodNumber def).
Proof. intros H. unfold lowerByKind. now rewrite H. Qed.

Lemma lowerByKind_boolean :
  Zod.typeName def = "ZodBoolean" ->
  lowerByKind walk def = Normal [("type", JStr "boolean")].
Proof. intros H. unfold lowerByKind. now rewrite H. Qed.

Lemma lowerByKind_array :
  Zod.typeName def = "ZodArray" -> lowerByKind walk def = handleZodArray walk def.
Proof. intros H. unfold lowerByKind. now rewrite H. Qed.

Lemma lowerByKind_object :
  Zod.typeName def = "ZodObject" ->
  lowerByKind walk def =
  match Zod.shape def with
  | None => Throw TypeError
  | Some shape =>
      let* properties := serializeSchemaWith walk shape in
      Normal [("type", JStr "object"); ("properties", JObj properties)]
  end.
Proof. intros H. unfold lowerByKind. now rewrite H. Qed.

Lemma lowerByKind_optional :
  Zod.typeName def = "ZodOptional" ->
  lowerByKind walk def = handleZodWrapper walk def [("optional", JBool true)].
Proof. intros H. unfold lowerByKind. now rewrite H. Qed.

Lemma lowerByKind_default :
  Zod.typeName def = "ZodDefault" ->
  lowerByKind walk def =
  match Zod.defaultValue def with
  | None => Throw TypeError
  | Some v => handleZodWrapper walk def [("default", v)]
  end.
Proof. intros H. unfold lowerByKind. now rewrite H. Qed.

Lemma lowerByKind_enum :
  Zod.typeName def = "ZodEnum" ->
  lowerByKind walk def =
  Normal [("type", JStr "string");
          ("enum", match Zod.values def with
                   | Some vs => JArr vs
                   | None => JUndefined
                   end)].
Proof. intros H. unfold lowerByKind. now rewrite H. Qed.

Lemma lowerByKind_union :
  Zod.typeName def = "ZodUnion" ->
  lowerByKind walk def =
  match Zod.options def with
  | None => Throw TypeError
  | Some opts =>
      let* lowered := mapM (fun opt => walk (Some opt)) opts in
      Normal [("oneOf", JArr (map JObj lowered))]
  end.
Proof. intros H. unfold lowerByKind. now rewrite H. Qed.

Lemma lowerByKind_nullable :
  Zod.typeName def = "ZodNullable" ->
  lowerByKind walk def = handleZodWrapper walk def [("nullable", JBool true)].
Proof. intros H. unfold lowerByKind. now rewrite H. Qed.

Lemma lowerByKind_fallback :
  ~ In (Zod.typeName def) recognisedKinds ->
  lowerByKind walk def =
  Normal [("type",
           JStr (JsString.toLowerCase (JsString.remove_first "Zod" (Zod.typeName def))))].
Proof.
  intros H. unfold lowerByKind.
  repeat match goal with
         | |- context [String.eqb ?a ?b] =>
             let E := fresh "E" in
             destruct (String.eqb_spec a b) as [E|E];
             [exfalso; apply H; rewrite E; simpl; tauto|]
         end.
  reflexivity.
Qed.
End LowerByKind.

Lemma mapM_walk opts :
  mapM (fun opt => zodToJsonSchemaArg (Some opt)) opts = mapM zodToJsonSchema opts.
Proof. reflexivity. Qed.

(** C9, as the code has it: serializeSchema lowers every named descriptor
    under its name, and the walker lowers
    - a string to type "string" with minLength and maxLength,
    - a number to type "number", or "integer" under an integer check, with
      minimum and maximum,
    - a boolean to type "boolean",
    - an array to type "array" with the lowered items and the bounds
      minItems and maxItems (not minLength and maxLength),
    - an optional, default-valued or nullable wrapper to the lowered inner
      schema with optional: true, default: value or nullable: true,
    - an enum to type "string" with enum,
    - a union to oneOf,
    - an object to type "object" with the serialized properties,
    - any other kind to the type named by the lowercased kind name, and a
      descriptor without definition to type "unknown", without throwing. *)
Theorem serializeSchema_lowering :
  (forall schema result,
      serializeSchema schema = Normal result ->
      NoDup (map fst schema) ->
      forall k z, In (k, z) schema ->
        exists s, zodToJsonSchema z = Normal s /\ map_get k result = Some (JObj s)) /\
  (forall z def,
      Zod._def z = Some def -> Zod.typeName def = "ZodString" ->
      exists s, zodToJsonSchema z = Normal s /\
        map_get "type" s = Some (JStr "string") /\
        map_get "minLength" s = lastValue "min" (orEmpty (Zod.checks def)) /\
        map_get "maxLength" s = lastValue "max" (orEmpty (Zod.checks def))) /\
  (forall z def,
      Zod._def z = Some def -> Zod.typeName def = "ZodNumber" ->
      exists s, zodToJsonSchema z = Normal s /\
        map_get "type" s =
          Some (JStr (if existsb (fun c => String.eqb (ZodCheck.kind c) "int")
                           (orEmpty (Zod.checks def))
                      then "integer" else "number")) /\
        map_get "minimum" s = lastValue "min" (orEmpty (Zod.checks def)) /\
        map_get "maximum" s = lastValue "max" (orEmpty (Zod.checks def))) /\
  (forall z def,
      Zod._def z = Some def -> Zod.typeName def = "ZodBoolean" ->
      zodToJsonSchema z = Normal (describe def [("type", JStr "boolean")])) /\
  (forall z def elem items,
      Zod._def z = Some def -> Zod.typeName def = "ZodArray" ->
      Zod.type def = Some elem -> zodToJsonSchema elem = Normal items ->
      exists s, zodToJsonSchema z = Normal s /\
        map_get "type" s = Some (JStr "array") /\
        map_get "items" s = Some (JObj items) /\
        map_get "minItems" s = option_map JNum (Zod.minLength def) /\
        map_get "maxItems" s = option_map JNum (Zod.maxLength def) /\
        map_get "minLength" s = None /\
        map_get "maxLength" s = None) /\
  (forall z def inner s0,
      Zod._def z = Some def -> Zod.typeName def = "ZodOptional" ->
      Zod.innerType def = Some inner -> zodToJsonSchema inner = Normal s0 ->
      zodToJsonSchema z
      = Normal (describe def (map_set "optional" (JBool true) s0))) /\
  (forall z def inner s0 v,
      Zod._def z = Some def -> Zod.typeName def = "ZodDefault" ->
      Zod.innerType def = Some inner -> zodToJsonSchema inner = Normal s0 ->
      Zod.defaultValue def = Some v ->
      zodToJsonSchema z = Normal (describe def (map_set "default" v s0))) /\
  (forall z def inner s0,
      Zod._def z = Some def -> Zod.typeName def = "ZodNullable" ->
      Zod.innerType def = Some inner -> zodToJsonSchema inner = Normal s0 ->
      zodToJsonSchema z
      = Normal (describe def (map_set "nullable" (JBool true) s0))) /\
  (forall z def vs,
      Zod._def z = Some def -> Zod.typeName def = "ZodEnum" ->
      Zod.values def = Some vs ->
      zodToJsonSchema z
      = Normal (describe def [("type", JStr "string"); ("enum", JArr vs)])) /\
  (forall z def opts lowered,
      Zod._def z = Some def -> Zod.typeName def = "ZodUnion" ->
      Zod.options def = Some opts -> mapM zodToJsonSchema opts = Normal lowered ->
      zodToJsonSchema z
      = Normal (describe def [("oneOf", JArr (map JObj lowered))])) /\
  (forall z def fields props,
      Zod._def z = Some def -> Zod.typeName def = "ZodObject" ->
      Zod.shape def = Some fields -> serializeSchema fields = Normal props ->
      zodToJsonSchema z
      = Normal (describe def [("type", JStr "object"); ("properties", JObj props)])) /\
  (forall z def,
      Zod._def z = Some def -> ~ In (Zod.typeName def) recognisedKinds ->
      zodToJsonSchema z
      = Normal (describe def
                  [("type",
                    JStr (JsString.toLowerCase
                            (JsString.remove_first "Zod" (Zod.typeName def))))])) /\
  (forall z, Zod._def z = None -> zodToJsonSchema z = Normal [("type", JStr "unknown")]).
Proof.
  repeat apply conj.
  - intros schema result Hs Hnd k z Hin.
    now apply (proj2 (serializeLoop_spec schema [] result Hs) Hnd).
  - intros z def Hd Hk. rewrite (zodToJsonSchema_def _ _ Hd), lowerByKind_string by trivial.
    eexists. split; [reflexivity|].
    rewrite !describe_other by discriminate. unfold handleZodString.
    destruct (fold_stringCheck (orEmpty (Zod.checks def)) [("type", JStr "string")])
      as (Ht & Hmax & Hmin).
    rewrite Ht, Hmax, Hmin. repeat split.
    + now destruct (lastValue "min" _).
    + now destruct (lastValue "max" _).
  - intros z def Hd Hk. rewrite (zodToJsonSchema_def _ _ Hd), lowerByKind_number by trivial.
    eexists. split; [reflexivity|].
    rewrite !describe_other by discriminate. unfold handleZodNumber.
    destruct (fold_numberCheck (orEmpty (Zod.checks def)) [("type", JStr "number")])
      as (Ht & Hmin & Hmax).
    rewrite Ht, Hmax, Hmin. repeat split.
    + now destruct (existsb _ _).
    + now destruct (lastValue "min" _).
    + now destruct (lastValue "max" _).
  - intros z def Hd Hk.
    now rewrite (zodToJsonSchema_def _ _ Hd), lowerByKind_boolean.
  - intros z def elem items Hd Hk He Hitems.
    rewrite (zodToJsonSchema_def _ _ Hd), lowerByKind_array by trivial.
    unfold handleZodArray. rewrite He. simpl. rewrite Hitems. simpl.
    eexists. split; [reflexivity|].
    rewrite !describe_other by discriminate.
    destruct (Zod.maxLength def), (Zod.minLength def); simpl; repeat split;
      now map_simpl.
  - intros z def inner s0 Hd Hk Hi Hs.
    rewrite (zodToJsonSchema_def _ _ Hd), lowerByKind_optional by trivial.
    unfold handleZodWrapper. rewrite Hi. simpl. now rewrite Hs.
  - intros z def inner s0 v Hd Hk Hi Hs Hv.
    rewrite (zodToJsonSchema_def _ _ Hd), lowerByKind_default by trivial.
    rewrite Hv. unfold handleZodWrapper. rewrite Hi. simpl. now rewrite Hs.
  - intros z def inner s0 Hd Hk Hi Hs.
    rewrite (zodToJsonSchema_def _ _ Hd), lowerByKind_nullable by trivial.
    unfold handleZodWrapper. rewrite Hi. simpl. now rewrite Hs.
  - intros z def vs Hd Hk Hv.
    now rewrite (zodToJsonSchema_def _ _ Hd), lowerByKind_enum, Hv.
  - intros z def opts lowered Hd Hk Ho Hl.
    rewrite (zodToJsonSchema_def _ _ Hd), lowerByKind_union by trivial.
    now rewrite Ho, mapM_walk, Hl.
  - intros z def fields props Hd Hk Hf Hp.
    rewrite (zodToJsonSchema_def _ _ Hd), lowerByKind_object by trivial.
    rewrite Hf. change (serializeSchemaWith zodToJsonSchemaArg fields)
      with (serializeSchema fields). now rewrite Hp.
  - intros z def Hd Hk.
    now rewrite (zodToJsonSchema_def _ _ Hd), lowerByKind_fallback.
  - intros z Hd. now rewrite zodToJsonSchema_unfold, Hd.
Qed.

Lemma serializeSchema_lowering_witness :
  (exists s, zodToJsonSchema tagsField = Normal s /\
     map_get "type" s = Some (JStr "array") /\
     map_get "items" s = Some (JObj [("type", JStr "string")]) /\
     map_get "minItems" s = Some (JNum 1) /\
     map_get "maxItems" s = Some (JNum 5) /\
     map_get "minLength" s = None /\
     map_get "maxLength" s = None) /\
  zodToJsonSchema (zOptional (zString [ZodCheck.mk "max" (JNum 2000)]) (Some "Text"))
  = Normal [("type", JStr "string"); ("maxLength", JNum 2000);
            ("optional", JBool true); ("description", JStr "Text")] /\
  zodToJsonSchema zDate = Normal [("type", JStr "date")].
Proof.
  destruct serializeSchema_lowering
    as (_ & _ & _ & _ & Harray & Hoptional & _ & _ & _ & _ & _ & Hfallback & _).
  split; [|split].
  - apply (Harray tagsField
             (Zod.mkZodDef "ZodArray" None None None None None (Some (zString []))
                None None (Some 1%Z) (Some 5%Z))
             (zString []) [("type", JStr "string")]); reflexivity.
  - apply (Hoptional
             (zOptional (zString [ZodCheck.mk "max" (JNum 2000)]) (Some "Text"))
             (Zod.mkZodDef "ZodOptional" (Some "Text") None None
                (Some (zString [ZodCheck.mk "max" (JNum 2000)])) None None None
                None None None)
             (zString [ZodCheck.mk "max" (JNum 2000)])
             [("type", JStr "string"); ("maxLength", JNum 2000)]); reflexivity.
  - apply (Hfallback zDate
             (Zod.mkZodDef "ZodDate" None (Some []) None None None None None None
                None None)); [reflexivity|].
    simpl. intuition discriminate.
Defined.

(** C9 as stated fails on arrays: their bounds are written as minItems
    and maxItems, and the lowered array has no minLength or maxLength. *)
Lemma serializeSchema_lowering_counterexample :
  serializeSchema [("tags", tagsField)]
  = Normal [("tags",
             JObj [("type", JStr "array");
                   ("items", JObj [("type", JStr "string")]);
                   ("maxItems", JNum 5);
                   ("minItems", JNum 1)])] /\
  ~ (exists s, zodToJsonSchema tagsField = Normal s /\
               (map_get "minLength" s = Some (JNum 1) \/
                map_get "maxLength" s = Some (JNum 5))).
Proof.
  split; [reflexivity|].
  intros (s & Hs & H). injection Hs as <-. destruct H; discriminate.
Qed.

(** ** Keyword search *)

Lemma prefix_app pat : forall s,
  String.prefix pat s = true <-> exists post, s = pat ++ post.
Proof.
  induction pat as [|a pat IH]; intros s.
  - split; [intros _; now exists s | now destruct s].
  - destruct s as [|b s]; simpl; [split; [discriminate | intros [post [=]]]|].
    destruct (Ascii.ascii_dec a b) as [->|Hne].
    + rewrite IH. split; intros [post H]; exists post; simpl in *; congruence.
    + split; [discriminate | intros [post [= ? _]]; congruence].
Qed.

(** [includes] is the substring test. *)
Lemma includes_substring s pat :
  JsString.includes s pat = true <-> exists pre post, s = pre ++ pat ++ post.
Proof.
  induction s as [|c s IH].
  - change (JsString.includes "" pat) with (String.prefix pat "" || false).
    rewrite orb_false_r, prefix_app. split.
    + intros [post H]. now exists "", post.
    + intros (pre & post & H). destruct pre; simpl in H; [eauto | discriminate].
  - change (JsString.includes (String c s) pat)
      with (String.prefix pat (String c s) || JsString.includes s pat).
    rewrite orb_true_iff, prefix_app, IH. split.
    + intros [[post H]|(pre & post & H)].
      * now exists "", post.
      * exists (String c pre), post. simpl. now rewrite H.
    + intros ([|c' pre] & post & H); simpl in H.
      * left. eauto.
      * right. injection H as _ H. eauto.
Qed.

Lemma scoreTool_relevance Q name info :
  scoreTool (JsString.toLowerCase Q) name info = relevance Q name info.
Proof.
  unfold scoreTool, relevance, containsCI.
  destruct (JsString.includes (JsString.toLowerCase name) _),
    (JsString.includes (JsString.toLowerCase (ToolInfo.title info)) _),
    (JsString.includes (JsString.toLowerCase (ToolInfo.description info)) _);
    reflexivity.
Qed.

(** The loop collects, in table order, the hits of positive score. *)
Lemma collectHits_filter Q m :
  collectHits (JsString.toLowerCase Q) m = filter positive (map (hitOf Q) m).
Proof.
  unfold collectHits.
  enough (H : forall acc,
             fold_left
               (fun results entry =>
                  let name := fst entry in
                  let info := RegisteredTool.info (snd entry) in
                  let score := scoreTool (JsString.toLowerCase Q) name info in
                  if (0 <? score)%nat
                  then (results ++ [SearchHit.mk score
                          (ToolSummary.mk name (ToolInfo.description info))])%list
                  else results) m acc
             = (acc ++ filter positive (map (hitOf Q) m))%list)
    by apply (H []).
  induction m as [|e m IH]; intros acc; simpl.
  - now rewrite app_nil_r.
  - rewrite IH, scoreTool_relevance. unfold positive at 2, hitOf at 2. simpl.
    destruct (0 <? relevance Q (fst e) (RegisteredTool.info (snd e)))%nat; trivial.
    now rewrite <- app_assoc.
Qed.

Lemma insertHit_perm h l : Permutation (insertHit h l) (h :: l).
Proof.
  induction l as [|x l IH]; simpl; trivial.
  destruct (SearchHit.score x <=? SearchHit.score h)%nat; trivial.
  rewrite IH. apply perm_swap.
Qed.

Lemma sortHits_perm l : Permutation (sortHits l) l.
Proof.
  induction l as [|h l IH]; simpl; trivial.
  rewrite insertHit_perm. now constructor.
Qed.

Lemma insertHit_sorted h l :
  StronglySorted byScoreDesc l -> StronglySorted byScoreDesc (insertHit h l).
Proof.
  induction 1 as [|x l Hs IH Hx]; simpl.
  - repeat constructor.
  - destruct (Nat.leb_spec (SearchHit.score x) (SearchHit.score h)) as [Hle|Hgt].
    + constructor; [now constructor|]. constructor; trivial.
      eapply Forall_impl; [|exact Hx]. unfold byScoreDesc. intros; lia.
    + constructor; trivial.
      rewrite (Forall_forall (byScoreDesc x)). intros y Hy.
      apply (Permutation_in _ (insertHit_perm h l)) in Hy as [<-|Hy].
      * unfold byScoreDesc. lia.
      * now apply (proj1 (Forall_forall _ _) Hx).
Qed.

Lemma sortHits_sorted l : StronglySorted byScoreDesc (sortHits l).
Proof.
  induction l as [|h l IH]; simpl; [constructor | now apply insertHit_sorted].
Qed.

(** The sort is stable: the hits of any one score keep their order. *)
Lemma insertHit_stable n h l :
  filter (fun x => Nat.eqb (SearchHit.score x) n) (insertHit h l)
  = filter (fun x => Nat.eqb (SearchHit.score x) n) (h :: l).
Proof.
  induction l as [|x l IH]; trivial.
  simpl insertHit.
  destruct (Nat.leb_spec (SearchHit.score x) (SearchHit.score h)) as [Hle|Hgt]; trivial.
  cbn [filter] in *. rewrite IH.
  destruct (Nat.eqb_spec (SearchHit.score x) n), (Nat.eqb_spec (SearchHit.score h) n);
    trivial. lia.
Qed.

Lemma sortHits_stable n l :
  filter (fun x => Nat.eqb (SearchHit.score x) n) (sortHits l)
  = filter (fun x => Nat.eqb (SearchHit.score x) n) l.
Proof.
  induction l as [|h l IH]; trivial.
  simpl sortHits. rewrite insertHit_stable. cbn [filter]. now rewrite IH.
Qed.

Lemma slice0_nonneg {A} (limit : Z) (l : list A) :
  (0 <= limit)%Z -> slice0 limit l = firstn (Z.to_nat limit) l.
Proof.
  intros H. unfold slice0.
  destruct (Z.ltb_spec limit 0) as [?|_]; [lia|].
  destruct (Z.le_ge_cases limit (Z.of_nat (length l))) as [Hle|Hge].
  - now rewrite Z.min_l.
  - rewrite Z.min_r, Nat2Z.id, !firstn_all2; trivial; lia.
Qed.

Lemma slice0_incl {A} (limit : Z) (l : list A) : incl (slice0 limit l) l.
Proof.
  intros x Hx. unfold slice0 in Hx.
  rewrite <- (firstn_skipn (Z.to_nat
    (if (limit <? 0)%Z then Z.max (Z.of_nat (length l) + limit) 0
     else Z.min limit (Z.of_nat (length l)))) l).
  apply in_or_app. now left.
Qed.

Lemma filter_none {A} (p : A -> bool) l :
  (forall x, In x l -> p x = false) -> filter p l = [].
Proof.
  induction l as [|x l IH]; simpl; trivial.
  intros H. rewrite (H x) by now left. apply IH. intros y Hy. apply H. now right.
Qed.

(** A table in which one key alone passes a test filters to that entry. *)
Lemma filter_only {V} (p : string * V -> bool) (m : JsMap V) k v :
  NoDup (map_keys m) ->
  map_get k m = Some v ->
  p (k, v) = true ->
  (forall k' v', map_get k' m = Some v' -> k' <> k -> p (k', v') = false) ->
  filter p m = [(k, v)].
Proof.
  induction m as [|[k0 v0] m IH]; simpl; [discriminate|].
  intros Hnd Hget Hp Hothers. inversion Hnd as [|? ? Hout Hnd']; subst.
  destruct (String.eqb_spec k0 k) as [->|Hne].
  - injection Hget as ->. rewrite Hp. f_equal.
    apply filter_none. intros [k' v'] Hin.
    assert (k' <> k).
    { intros ->. apply Hout. change (In (fst (k, v')) (map fst m)). now apply in_map. }
    apply (Hothers k' v'); trivial.
    destruct (String.eqb_spec k k'); [congruence|].
    now apply In_map_get.
  - rewrite (Hothers k0 v0); trivial.
    + apply IH; trivial. intros k' v' Hget' Hk'.
      apply Hothers; trivial.
      destruct (String.eqb_spec k0 k') as [->|_]; trivial.
      exfalso. apply Hout. now apply map_get_Some_keys in Hget'.
    + now rewrite String.eqb_refl.
Qed.

Lemma filter_map_comm {A B} (f : A -> B) (p : B -> bool) l :
  filter p (map f l) = map f (filter (fun x => p (f x)) l).
Proof.
  induction l as [|x l IH]; simpl; trivial.
  destruct (p (f x)); simpl; now rewrite IH.
Qed.

Lemma searchTools_unfold r Q limit :
  searchTools r Q limit =
  map SearchHit.tool
    (slice0 (match limit with Some l => l | None => 20%Z end)
       (sortHits (filter positive (map (hitOf Q) (tools r))))).
Proof. unfold searchTools. now rewrite collectHits_filter. Qed.

(** Every result of a search comes from a table entry of positive score. *)
Lemma searchTools_origin r Q limit e :
  In e (searchTools r Q limit) ->
  exists entry, In entry (tools r) /\
                0 < relevance Q (fst entry) (RegisteredTool.info (snd entry)) /\
                e = SearchHit.tool (hitOf Q entry).
Proof.
  rewrite searchTools_unfold. intros Hin.
  apply in_map_iff in Hin as (h & <- & Hin).
  apply slice0_incl in Hin.
  apply (Permutation_in _ (sortHits_perm _)) in Hin.
  apply filter_In in Hin as [Hin Hpos].
  apply in_map_iff in Hin as (entry & <- & Hin).
  exists entry. repeat split; trivial.
  now apply Nat.ltb_lt in Hpos.
Qed.

(** C2, as the code has it.  The tools of a registry are scored 3 for the
    name, 2 for the title and 1 for the description that contains the
    query as a case-insensitive substring; the tools of score 0 are left
    out and the others are ranked by descending score; for a limit L >= 0
    (20 when omitted) the result is the first L summaries of the ranking,
    so it has at most L entries.  A tool none of whose name, title and
    description contains the query never appears; and for L >= 1 a tool
    whose name contains the query, when no other tool matches, is the
    sole result. *)
Theorem searchTools_ranking r Q limit :
  NoDup (map_keys (tools r)) ->
  let L := match limit with Some l => l | None => 20%Z end in
  (exists ranked,
      Permutation ranked (filter positive (map (hitOf Q) (tools r))) /\
      StronglySorted byScoreDesc ranked /\
      ((0 <= L)%Z ->
       searchTools r Q limit = map SearchHit.tool (firstn (Z.to_nat L) ranked))) /\
  ((0 <= L)%Z -> (Z.of_nat (length (searchTools r Q limit)) <= L)%Z) /\
  (forall N t,
      map_get N (tools r) = Some t ->
      containsCI N Q = false ->
      containsCI (ToolInfo.title (RegisteredTool.info t)) Q = false ->
      containsCI (ToolInfo.description (RegisteredTool.info t)) Q = false ->
      ~ exists e, In e (searchTools r Q limit) /\ ToolSummary.name e = N) /\
  (forall N t,
      (1 <= L)%Z ->
      map_get N (tools r) = Some t ->
      containsCI N Q = true ->
      (forall N' t',
          map_get N' (tools r) = Some t' -> N' <> N ->
          containsCI N' Q = false /\
          containsCI (ToolInfo.title (RegisteredTool.info t')) Q = false /\
          containsCI (ToolInfo.description (RegisteredTool.info t')) Q = false) ->
      searchTools r Q limit
      = [ToolSummary.mk N (ToolInfo.description (RegisteredTool.info t))]).
Proof.
  intros Hnd L. repeat apply conj.
  - exists (sortHits (filter positive (map (hitOf Q) (tools r)))).
    split; [apply sortHits_perm|]. split; [apply sortHits_sorted|].
    intros HL. now rewrite searchTools_unfold, slice0_nonneg.
  - intros HL. rewrite searchTools_unfold, slice0_nonneg, length_map by trivial.
    pose proof (firstn_le_length (Z.to_nat L)
                  (sortHits (filter positive (map (hitOf Q) (tools r))))).
    fold L. lia.
  - intros N t Hget Hn Ht Hd (e & Hin & Hname).
    apply searchTools_origin in Hin as ([k t'] & Hin & Hpos & ->).
    simpl in Hname. subst k.
    apply In_map_get in Hin; trivial.
    rewrite Hget in Hin. injection Hin as <-.
    simpl in Hpos. unfold relevance in Hpos. rewrite Hn, Ht, Hd in Hpos.
    simpl in Hpos. lia.
  - intros N t HL Hget Hn Hothers.
    rewrite searchTools_unfold, filter_map_comm.
    rewrite (filter_only (fun x => positive (hitOf Q x)) (tools r) N t); trivial.
    + simpl. fold L. rewrite slice0_nonneg by lia.
      rewrite firstn_all2 by (simpl; lia). reflexivity.
    + unfold positive, hitOf, relevance. simpl. rewrite Hn. reflexivity.
    + intros N' t' Hget' Hne.
      destruct (Hothers N' t' Hget' Hne) as (H1 & H2 & H3).
      unfold positive, hitOf, relevance. simpl. now rewrite H1, H2, H3.
Qed.

Lemma searchTools_ranking_witness :
  (Z.of_nat (length (searchTools (run [sendMessage; banMember]) "a" (Some 1%Z)))
   <= 1)%Z /\
  ~ (exists e, In e (searchTools (run [sendMessage; banMember]) "ban" None) /\
               ToolSummary.name e = "send_message") /\
  searchTools (run [sendMessage; banMember]) "ban" None
  = [ToolSummary.mk "ban_member" "Ban a user from the server"].
Proof.
  pose proof (searchTools_ranking (run [sendMessage; banMember]) "a" (Some 1%Z)
                (run_tools_NoDup [sendMessage; banMember])) as (_ & Hlen & _ & _).
  pose proof (searchTools_ranking (run [sendMessage; banMember]) "ban" None
                (run_tools_NoDup [sendMessage; banMember])) as (_ & _ & Hnever & Hsole).
  split; [|split].
  - apply Hlen. simpl. lia.
  - apply (Hnever "send_message"
             (RegisteredTool.mk (infoOf sendMessage) sampleHandler)); reflexivity.
  - apply (Hsole "ban_member"
             (RegisteredTool.mk (infoOf banMember) sampleHandler));
      [simpl; lia | reflexivity | reflexivity |].
    intros N' t' Hget Hne.
    change (tools (run [sendMessage; banMember]))
      with [("send_message", RegisteredTool.mk (infoOf sendMessage) sampleHandler);
            ("ban_member", RegisteredTool.mk (infoOf banMember) sampleHandler)]
      in Hget.
    cbn [map_get] in Hget.
    destruct (String.eqb_spec "send_message" N') as [<-|_].
    + injection Hget as <-. repeat split; reflexivity.
    + destruct (String.eqb_spec "ban_member" N') as [<-|_];
        [congruence | discriminate].
Defined.

(** C2 as stated fails at the limit 0, where the only matching tool is
    not returned, and at a negative limit, which counts from the end of
    the ranking instead of bounding the length. *)
Lemma searchTools_ranking_counterexample :
  containsCI "ban_member" "ban" = true /\
  relevance "ban" "send_message" (infoOf sendMessage) = 0 /\
  searchTools (run [sendMessage; banMember]) "ban" (Some 0%Z) = [] /\
  ~ (Z.of_nat (length (searchTools (run [sendMessage; banMember]) "a" (Some (-1)%Z)))
     <= -1)%Z.
Proof.
  split; [vm_compute; reflexivity|].
  split; [vm_compute; reflexivity|].
  split; [vm_compute; reflexivity|].
  vm_compute. intros H. now apply H.
Qed.

(** ** Scenarios of the specification and of the test suite *)

Example scenario_search_by_name :
  searchTools (run [sendMessage; banMember]) "ban" None
  = [ToolSummary.mk "ban_member" "Ban a user from the server"].
Proof. reflexivity. Qed.

Example scenario_search_by_description :
  searchTools (run [sendMessage; banMember]) "Discord" None
  = [ToolSummary.mk "send_message" "Send a message to Discord"].
Proof. reflexivity. Qed.

Example scenario_search_respects_limit :
  searchTools (run [sendMessage; banMember]) "a" (Some 1%Z)
  = [ToolSummary.mk "send_message" "Send a message to Discord"] /\
  searchTools (run [sendMessage; banMember]) "a" None
  = [ToolSummary.mk "send_message" "Send a message to Discord";
     ToolSummary.mk "ban_member" "Ban a user from the server"].
Proof. split; reflexivity. Qed.

Example scenario_listCategories :
  listCategories (run [sendMessage])
  = [CategoryInfo.mk "messaging"
       "Send, read, edit, delete messages. Add reactions, pin/unpin messages." 1].
Proof. reflexivity. Qed.

Example scenario_listTools_mixed_case :
  listTools (run [banMember]) "MODERATION"
  = [ToolSummary.mk "ban_member" "Ban a user from the server"] /\
  listTools (run [banMember]) "unknown" = [].
Proof. split; reflexivity. Qed.

Example scenario_getToolSchema_unknown :
  getToolSchema (run [sendMessage]) "nonexistent" = None.
Proof. reflexivity. Qed.

Example scenario_duplicate_name :
  listCategories (run [banMember; banMember])
  = [CategoryInfo.mk "moderation"
       "Kick, ban, unban, timeout members. View ban list." 2] /\
  getAllToolNames (run [banMember; banMember]) = ["ban_member"].
Proof. split; reflexivity. Qed.

(** * Further properties of the registry *)

(** ** Lookup by name along a trace *)

Lemma lastCall_snoc n calls c :
  lastCall n (calls ++ [c]) =
  if String.eqb (Registration.name c) n then Some c else lastCall n calls.
Proof. unfold lastCall. now rewrite rev_unit. Qed.

Lemma lastCall_Some n calls c :
  lastCall n calls = Some c -> In c calls /\ Registration.name c = n.
Proof.
  unfold lastCall. intros H. apply find_some in H as [Hin Hn].
  split; [now apply in_rev | now apply String.eqb_eq].
Qed.

Lemma lastCall_None n calls :
  lastCall n calls = None <-> ~ exists c, In c calls /\ Registration.name c = n.
Proof.
  unfold lastCall. split.
  - intros H (c & Hin & Hn).
    apply in_rev in Hin. apply (find_none _ _ H c) in Hin.
    apply String.eqb_neq in Hin. contradiction.
  - intros H. destruct (find _ (rev calls)) as [c|] eqn:E; trivial.
    exfalso. apply H. exists c. apply find_some in E as [Hin Hn].
    split; [now apply in_rev | now apply String.eqb_eq].
Qed.

(** The entry of the name table under [n] records the last call made
    under [n]. *)
Lemma run_tools_lastCall calls n :
  map_get n (tools (run calls)) =
  option_map (fun c => RegisteredTool.mk (infoOf c) (Registration.handler c))
    (lastCall n calls).
Proof.
  induction calls as [|c calls IH] using rev_ind; [reflexivity|].
  rewrite run_snoc, register_tools, lastCall_snoc.
  destruct (String.eqb_spec (Registration.name c) n) as [->|Hne].
  - now rewrite map_get_set_same.
  - now rewrite map_get_set_other.
Qed.

(** X1: along every trace, getToolSchema(n) and getHandler(n) return the
    data of the last registerTool call made under the name n, and null
    when no call used that name. *)
Theorem lookup_is_last_registration calls n :
  getToolSchema (run calls) n = option_map infoOf (lastCall n calls) /\
  getHandler (run calls) n = option_map Registration.handler (lastCall n calls).
Proof.
  unfold getToolSchema, getHandler. rewrite run_tools_lastCall.
  now destruct (lastCall n calls).
Qed.

(** X2: hasTool(n), a non-null getToolSchema(n) and a non-null
    getHandler(n) hold for exactly the names some registerTool call of the
    trace used: a registered tool is never lost, whatever its category. *)
Theorem registered_names_are_kept calls n :
  (hasTool (run calls) n = true <->
   exists c, In c calls /\ Registration.name c = n) /\
  (getToolSchema (run calls) n <> None <->
   exists c, In c calls /\ Registration.name c = n) /\
  (getHandler (run calls) n <> None <->
   exists c, In c calls /\ Registration.name c = n).
Proof.
  unfold hasTool, map_has, getToolSchema, getHandler.
  rewrite run_tools_lastCall.
  destruct (lastCall n calls) as [c|] eqn:E; simpl.
  - apply lastCall_Some in E as [Hin Hn].
    repeat split; try discriminate; eauto.
  - apply lastCall_None in E.
    repeat split; intros H; try discriminate; try contradiction; congruence.
Qed.

(** ** The order of the name table *)

Lemma notIn_spec ks x : notIn ks x = true <-> ~ In x ks.
Proof.
  unfold notIn. rewrite negb_true_iff, <- not_true_iff_false, existsb_exists.
  split; intros H Hin; apply H.
  - exists x. split; trivial. apply String.eqb_refl.
  - destruct Hin as (y & Hy & Heq). apply String.eqb_eq in Heq. now subst.
Qed.

Lemma filter_filter_imp {A} (p q : A -> bool) l :
  (forall x, p x = true -> q x = true) ->
  filter p (filter q l) = filter p l.
Proof.
  intros H. induction l as [|x l IH]; simpl; trivial.
  destruct (q x) eqn:Eq; simpl.
  - now rewrite IH.
  - destruct (p x) eqn:Ep; trivial. apply H in Ep. congruence.
Qed.

Lemma filter_filter_and {A} (p q : A -> bool) l :
  filter p (filter q l) = filter (fun x => p x && q x) l.
Proof.
  induction l as [|x l IH]; simpl; trivial.
  destruct (q x); simpl; rewrite ?andb_true_r, ?andb_false_r.
  - destruct (p x); now rewrite IH.
  - exact IH.
Qed.

(** The keys after a run of [map_set]: the keys before, then the new
    names in the order of their first occurrence. *)
Lemma fold_register_keys calls : forall r,
  map_keys (tools (fold_left register calls r)) =
  (map_keys (tools r) ++
   filter (notIn (map_keys (tools r)))
     (firstOccurrences (map Registration.name calls)))%list.
Proof.
  induction calls as [|c calls IH]; intros r; simpl.
  - now rewrite app_nil_r.
  - rewrite IH, register_tools.
    set (k := Registration.name c). set (ks := map_keys (tools r)).
    destruct (in_dec string_dec k ks) as [Hin|Hout].
    + rewrite map_keys_set_present by trivial. fold ks.
      assert (Hk : notIn ks k = false).
      { apply not_true_iff_false. rewrite notIn_spec. tauto. }
      rewrite Hk. f_equal. symmetry. apply filter_filter_imp.
      intros x Hx. apply notIn_spec in Hx. apply negb_true_iff.
      apply String.eqb_neq. congruence.
    + rewrite map_keys_set_absent by trivial. fold ks.
      assert (Hk : notIn ks k = true) by now apply notIn_spec.
      rewrite Hk, <- app_assoc. simpl. do 2 f_equal.
      rewrite filter_filter_and. apply filter_ext. intros x.
      unfold notIn. rewrite existsb_app. simpl. rewrite orb_false_r, negb_orb.
      f_equal. now rewrite String.eqb_sym.
Qed.

(** X3: getAllToolNames lists every registered name once, at the place
    of its first registration; registering a name again does not move
    it. *)
Theorem getAllToolNames_first_registration_order calls :
  getAllToolNames (run calls) = firstOccurrences (map Registration.name calls) /\
  NoDup (getAllToolNames (run calls)).
Proof.
  split; [|apply run_tools_NoDup].
  unfold getAllToolNames, run. rewrite fold_register_keys.
  change (map_keys (tools newToolRegistry)) with (@nil string).
  induction (firstOccurrences (map Registration.name calls)) as [|x l IH];
    [reflexivity|].
  cbn [app filter notIn existsb negb] in *. now rewrite IH.
Qed.

(** ** Category listings along a trace *)

Lemma truthy_or_empty d : (if JsString.truthy d then d else "") = d.
Proof. now destruct d. Qed.

(** [listTools] on a trace: the names registered under the lowercased
    category, each with the description of the last call made under that
    name. *)
Lemma listTools_run calls c :
  (In (JsString.toLowerCase c) categoryNames ->
   listTools (run calls) c =
   map (fun n =>
          ToolSummary.mk n
            match lastCall n calls with
            | Some call => Registration.description call
            | None => ""
            end)
       (namesUnder (JsString.toLowerCase c) calls)) /\
  (~ In (JsString.toLowerCase c) categoryNames -> listTools (run calls) c = []).
Proof.
  unfold listTools. split; intros HC.
  - rewrite (proj1 (run_index calls _ HC)). apply map_ext. intros n.
    rewrite run_tools_lastCall. destruct (lastCall n calls); simpl; trivial.
    now rewrite truthy_or_empty.
  - now rewrite (proj1 (run_index_absent calls _ HC)).
Qed.

(** X4: every entry listTools returns names a tool that is registered,
    and carries the description of the last registration made under that
    name (whatever category that registration named). *)
Theorem listTools_entries_are_registered calls c e :
  In e (listTools (run calls) c) ->
  exists call,
    lastCall (ToolSummary.name e) calls = Some call /\
    ToolSummary.description e = Registration.description call /\
    hasTool (run calls) (ToolSummary.name e) = true.
Proof.
  intros Hin.
  destruct (in_dec string_dec (JsString.toLowerCase c) categoryNames) as [HC|HC].
  - rewrite (proj1 (listTools_run calls c) HC) in Hin.
    apply in_map_iff in Hin as (n & <- & Hn). simpl.
    apply namesUnder_In in Hn as (c0 & Hc0 & Hname & _).
    destruct (lastCall n calls) as [call|] eqn:E.
    + exists call. repeat split.
      unfold hasTool, map_has. now rewrite run_tools_lastCall, E.
    + exfalso. apply lastCall_None in E. apply E. eauto.
  - rewrite (proj2 (listTools_run calls c) HC) in Hin. destruct Hin.
Qed.

Lemma listTools_entries_are_registered_witness :
  exists call,
    lastCall "ban_member" [banMember; sendMessage] = Some call /\
    "Ban a user from the server" = Registration.description call /\
    hasTool (run [banMember; sendMessage]) "ban_member" = true.
Proof.
  apply (listTools_entries_are_registered [banMember; sendMessage] "Moderation"
           (ToolSummary.mk "ban_member" "Ban a user from the server")).
  vm_compute. left. reflexivity.
Defined.

(** X5: for a category whose lowercase form is predeclared, listTools
    returns one entry per registerTool call made under it, in call order
    and with repetitions; for any other category it returns nothing; and
    for every category listCategories reports, the reported toolCount is
    the number of entries listTools returns for it. *)
Theorem listTools_matches_toolCount calls :
  (forall c,
      In (JsString.toLowerCase c) categoryNames ->
      map ToolSummary.name (listTools (run calls) c)
      = namesUnder (JsString.toLowerCase c) calls) /\
  (forall c,
      ~ In (JsString.toLowerCase c) categoryNames ->
      listTools (run calls) c = []) /\
  (forall info,
      In info (listCategories (run calls)) ->
      length (listTools (run calls) (CategoryInfo.name info))
      = CategoryInfo.toolCount info).
Proof.
  repeat apply conj.
  - intros c HC. rewrite (proj1 (listTools_run calls c) HC), map_map. simpl.
    apply map_id.
  - intros c HC. now apply listTools_run.
  - intros info Hin.
    assert (Hl : listed (run calls) (CategoryInfo.name info)) by (exists info; auto).
    destruct (in_dec string_dec (CategoryInfo.name info) categoryNames) as [HC|HC].
    + unfold listCategories, map_values in Hin.
      apply filter_In in Hin as [Hin _].
      apply in_map_iff in Hin as ([k v] & Hv & Hin). simpl in Hv. subst v.
      apply In_map_get in Hin;
        [|rewrite (proj1 (run_keys calls)); repeat constructor; simpl;
          intuition discriminate].
      assert (Hk : In k categoryNames).
      { rewrite <- (proj1 (run_keys calls)). now apply map_get_Some_keys in Hin. }
      rewrite (proj2 (run_index calls k Hk)) in Hin. injection Hin as <-. simpl.
      assert (Hlow : In (JsString.toLowerCase k) categoryNames)
        by now rewrite predeclared_lowercase.
      rewrite (proj1 (listTools_run calls k) Hlow), length_map.
      now rewrite predeclared_lowercase.
    + apply listed_iff in Hl as (info' & Hget & _).
      rewrite (proj2 (run_index_absent calls _ HC)) in Hget. discriminate.
Qed.

Lemma listTools_matches_toolCount_witness :
  map ToolSummary.name (listTools (run [banMember; sendMessage; banMember]) "MODERATION")
  = ["ban_member"; "ban_member"] /\
  listTools (run [banMember]) "Utilities" = [].
Proof.
  destruct (listTools_matches_toolCount [banMember; sendMessage; banMember])
    as (Hnames & _ & _).
  destruct (listTools_matches_toolCount [banMember]) as (_ & Hnone & _).
  split.
  - apply (Hnames "MODERATION"). simpl. tauto.
  - apply Hnone. simpl. intuition discriminate.
Defined.

(** A table is determined by its keys and its lookups. *)
Lemma JsMap_ext {V} (f : string -> V) : forall (m : JsMap V) ks,
  map_keys m = ks ->
  NoDup ks ->
  (forall k, In k ks -> map_get k m = Some (f k)) ->
  m = map (fun k => (k, f k)) ks.
Proof.
  induction m as [|[k0 v0] m IH]; intros ks Hks Hnd Hget; simpl in Hks; subst ks.
  - reflexivity.
  - inversion Hnd as [|? ? Hout Hnd']; subst. simpl. f_equal.
    + specialize (Hget k0 (or_introl eq_refl)). simpl in Hget.
      rewrite String.eqb_refl in Hget. now injection Hget as ->.
    + apply IH; trivial. intros k Hk.
      specialize (Hget k (or_intror Hk)). simpl in Hget.
      destruct (String.eqb_spec k0 k) as [->|_]; [contradiction | trivial].
Qed.

Lemma categoryNames_NoDup : NoDup categoryNames.
Proof. repeat constructor; simpl; intuition discriminate. Qed.

(** The category table after a trace, entry by entry. *)
Lemma run_categories calls :
  categories (run calls) =
  map (fun def =>
         (fst def,
          CategoryInfo.mk (fst def) (snd def)
            (length (namesUnder (fst def) calls))))
      categoryDefs.
Proof.
  rewrite (JsMap_ext
             (fun C => CategoryInfo.mk C (descriptionOf C) (length (namesUnder C calls)))
             (categories (run calls)) categoryNames).
  - reflexivity.
  - apply run_keys.
  - apply categoryNames_NoDup.
  - intros k Hk. now apply run_index.
Qed.

Lemma listCategories_run calls :
  listCategories (run calls) =
  filter (fun info => (0 <? CategoryInfo.toolCount info)%nat)
    (map (fun def =>
            CategoryInfo.mk (fst def) (snd def)
              (length (namesUnder (fst def) calls)))
         categoryDefs).
Proof.
  unfold listCategories, map_values. rewrite run_categories, map_map.
  reflexivity.
Qed.

(** X6: listCategories reports the predeclared categories that have at
    least one registration, in the order of their declaration (not of the
    registrations), each with its declared description and with the number
    of registerTool calls made under its name. *)
Theorem listCategories_in_declaration_order calls :
  listCategories (run calls) =
  filter (fun info => (0 <? CategoryInfo.toolCount info)%nat)
    (map (fun def =>
            CategoryInfo.mk (fst def) (snd def)
              (length (namesUnder (fst def) calls)))
         categoryDefs).
Proof. apply listCategories_run. Qed.

Lemma count_one_category (cat : string) : forall ks,
  NoDup ks ->
  list_sum (map (fun C => if String.eqb cat C then 1 else 0) ks)
  = if existsb (String.eqb cat) ks then 1 else 0.
Proof.
  induction ks as [|k ks IH]; intros Hnd; simpl; trivial.
  inversion Hnd as [|? ? Hout Hnd']; subst. rewrite IH by trivial.
  destruct (String.eqb_spec cat k) as [->|Hne]; simpl; trivial.
  destruct (existsb (String.eqb k) ks) eqn:E; trivial.
  exfalso. apply Hout. apply existsb_exists in E as (y & Hy & Heq).
  apply String.eqb_eq in Heq. now subst.
Qed.

Lemma namesUnder_total calls : forall ks,
  NoDup ks ->
  list_sum (map (fun C => length (namesUnder C calls)) ks)
  = length (filter (fun c => existsb (String.eqb (Registration.category c)) ks) calls).
Proof.
  intros ks Hnd. induction calls as [|c calls IH]; simpl.
  - clear Hnd. induction ks as [|k ks IHk]; simpl; trivial.
  - assert (Hsplit :
      list_sum (map (fun C => length (namesUnder C (c :: calls))) ks)
      = list_sum (map (fun C => if String.eqb (Registration.category c) C
                               then 1 else 0) ks)
        + list_sum (map (fun C => length (namesUnder C calls)) ks)).
    { clear. induction ks as [|k ks IHk]; simpl; trivial.
      rewrite IHk. unfold namesUnder at 1. simpl.
      destruct (String.eqb (Registration.category c) k); simpl;
        fold (namesUnder k calls); lia. }
    rewrite Hsplit, IH, count_one_category by trivial.
    destruct (existsb _ ks); simpl; lia.
Qed.

Lemma list_sum_filter_positive {A} (f : A -> nat) l :
  list_sum (map f (filter (fun x => (0 <? f x)%nat) l)) = list_sum (map f l).
Proof.
  induction l as [|x l IH]; simpl; trivial.
  destruct (Nat.ltb_spec 0 (f x)); simpl; lia.
Qed.

(** X7: the toolCounts listCategories reports add up to the number of
    registerTool calls made under a predeclared category: calls under any
    other category are counted nowhere, and a name registered twice is
    counted twice. *)
Theorem listCategories_counts_add_up calls :
  list_sum (map CategoryInfo.toolCount (listCategories (run calls)))
  = length (filter underPredeclared calls).
Proof.
  rewrite listCategories_run, list_sum_filter_positive, map_map. simpl.
  change (list_sum (map (fun C => length (namesUnder C calls)) categoryNames)
          = length (filter underPredeclared calls)).
  now rewrite namesUnder_total by apply categoryNames_NoDup.
Qed.

(** ** Registration under a category that was not predeclared *)

(** X8: a registerTool call under a category that is no predeclared name
    changes neither category table: listCategories and the names listed by
    listTools are as before, while the tool is stored, found by hasTool
    and getHandler, and named by getAllToolNames. *)
Theorem register_unlisted_category r c :
  reachable r ->
  ~ In (Registration.category c) categoryNames ->
  categories (register r c) = categories r /\
  toolsByCategory (register r c) = toolsByCategory r /\
  listCategories (register r c) = listCategories r /\
  (forall x, map ToolSummary.name (listTools (register r c) x)
             = map ToolSummary.name (listTools r x)) /\
  hasTool (register r c) (Registration.name c) = true /\
  getHandler (register r c) (Registration.name c) = Some (Registration.handler c) /\
  In (Registration.name c) (getAllToolNames (register r c)).
Proof.
  intros Hr HC. apply reachable_trace in Hr as [calls ->].
  destruct (run_index_absent calls _ HC) as [Ht Hc].
  assert (Hcat : categories (register (run calls) c) = categories (run calls))
    by now rewrite register_categories, Ht.
  assert (Htbc : toolsByCategory (register (run calls) c) = toolsByCategory (run calls))
    by now rewrite register_toolsByCategory, Ht.
  repeat apply conj; trivial.
  - unfold listCategories. now rewrite Hcat.
  - intros x. unfold listTools. rewrite Htbc.
    destruct (map_get (JsString.toLowerCase x) (toolsByCategory (run calls)));
      trivial.
    rewrite !map_map. reflexivity.
  - unfold hasTool, map_has. now rewrite register_tools, map_get_set_same.
  - apply getHandler_register.
  - unfold getAllToolNames. apply map_get_Some_keys with
      (v := RegisteredTool.mk (infoOf c) (Registration.handler c)).
    now rewrite register_tools, map_get_set_same.
Qed.

Lemma register_unlisted_category_witness :
  listCategories
    (register (run [sendMessage])
       (Registration.mk "purge_cache" "utilities" "Purge" "Purge the cache" [] []
          sampleHandler))
  = listCategories (run [sendMessage]) /\
  hasTool
    (register (run [sendMessage])
       (Registration.mk "purge_cache" "utilities" "Purge" "Purge the cache" [] []
          sampleHandler))
    "purge_cache" = true.
Proof.
  destruct (register_unlisted_category (run [sendMessage])
              (Registration.mk "purge_cache" "utilities" "Purge" "Purge the cache"
                 [] [] sampleHandler))
    as (_ & _ & Hlist & _ & Hhas & _).
  - apply (reachable_register _ sendMessage reachable_new).
  - simpl. intuition discriminate.
  - split; [exact Hlist | exact Hhas].
Defined.

(** ** Further properties of the search *)

Lemma includes_empty s : JsString.includes s "" = true.
Proof. apply includes_substring. now exists "", s. Qed.

Lemma relevance_empty_query name info : relevance "" name info = 6.
Proof.
  unfold relevance, containsCI.
  change (JsString.toLowerCase "") with "". now rewrite !includes_empty.
Qed.

Lemma sortHits_same_score n l :
  (forall h, In h l -> SearchHit.score h = n) -> sortHits l = l.
Proof.
  induction l as [|h l IH]; intros H; simpl; trivial.
  rewrite IH by (intros x Hx; apply H; now right).
  destruct l as [|x l]; simpl; trivial.
  rewrite (H h), (H x) by (simpl; tauto). now rewrite Nat.leb_refl.
Qed.

(** X9: the empty query matches every tool with the same score, so
    searchTools("", L) returns the summaries of the first L entries of the
    name table, in the order of first registration. *)
Theorem searchTools_empty_query r (L : Z) :
  (0 <= L)%Z ->
  searchTools r "" (Some L) = firstn (Z.to_nat L) (map summaryOf (tools r)) /\
  map ToolSummary.name (searchTools r "" (Some L))
  = firstn (Z.to_nat L) (getAllToolNames r).
Proof.
  intros HL.
  assert (Hhits : filter positive (map (hitOf "") (tools r)) = map (hitOf "") (tools r)).
  { apply forallb_filter_id. apply forallb_forall. intros h Hh.
    apply in_map_iff in Hh as (e & <- & _).
    unfold positive, hitOf. simpl SearchHit.score. now rewrite relevance_empty_query. }
  assert (Hs : searchTools r "" (Some L)
               = firstn (Z.to_nat L) (map summaryOf (tools r))).
  { rewrite searchTools_unfold, Hhits, (sortHits_same_score 6).
    - rewrite slice0_nonneg by trivial. now rewrite <- firstn_map, map_map.
    - intros h Hh. apply in_map_iff in Hh as (e & <- & _).
      apply relevance_empty_query. }
  split; trivial.
  rewrite Hs, <- firstn_map, map_map. reflexivity.
Qed.

Lemma searchTools_empty_query_witness :
  searchTools (run [sendMessage; banMember; sendMessage]) "" (Some 1%Z)
  = firstn 1 (map summaryOf (tools (run [sendMessage; banMember; sendMessage]))).
Proof.
  apply (searchTools_empty_query (run [sendMessage; banMember; sendMessage]) 1).
  lia.
Defined.

Lemma NoDup_map_firstn {A B} (f : A -> B) n l :
  NoDup (map f l) -> NoDup (map f (firstn n l)).
Proof.
  intros H. rewrite <- (firstn_skipn n l), map_app in H.
  now apply NoDup_app_remove_r in H.
Qed.

(** X10: on a name table with distinct keys, searchTools never returns
    the same tool twice, and every result names a registered tool, carries
    that tool's description, and matches the query on its name, title or
    description. *)
Theorem searchTools_results_distinct_and_registered r Q limit :
  NoDup (map_keys (tools r)) ->
  NoDup (map ToolSummary.name (searchTools r Q limit)) /\
  (forall e, In e (searchTools r Q limit) ->
     exists info,
       getToolSchema r (ToolSummary.name e) = Some info /\
       ToolSummary.description e = ToolInfo.description info /\
       (containsCI (ToolSummary.name e) Q = true \/
        containsCI (ToolInfo.title info) Q = true \/
        containsCI (ToolInfo.description info) Q = true)).
Proof.
  intros Hnd. split.
  - rewrite searchTools_unfold, map_map. unfold slice0.
    apply NoDup_map_firstn.
    apply (Permutation_NoDup
             (Permutation_map _ (Permutation_sym (sortHits_perm _)))).
    rewrite filter_map_comm, map_map. simpl.
    apply (NoDup_keys_filter (fun x => positive (hitOf Q x))) in Hnd.
    exact Hnd.
  - intros e Hin.
    apply searchTools_origin in Hin as ([k t] & Hin & Hpos & ->). simpl in *.
    apply In_map_get in Hin; trivial.
    exists (RegisteredTool.info t). unfold getToolSchema. rewrite Hin.
    repeat split.
    unfold relevance in Hpos.
    destruct (containsCI k Q); [now left|].
    destruct (containsCI (ToolInfo.title (RegisteredTool.info t)) Q);
      [right; now left|].
    destruct (containsCI (ToolInfo.description (RegisteredTool.info t)) Q);
      [right; now right|].
    simpl in Hpos. lia.
Qed.

Lemma searchTools_results_distinct_and_registered_witness :
  NoDup (map ToolSummary.name
           (searchTools (run [sendMessage; banMember; banMember]) "a" None)).
Proof.
  apply (searchTools_results_distinct_and_registered
           (run [sendMessage; banMember; banMember]) "a" None).
  repeat constructor; simpl; intuition discriminate.
Defined.

(** X11: raising the limit only extends the result: for 0 <= L1 <= L2,
    searchTools(Q, L1) is the first L1 entries of searchTools(Q, L2). *)
Theorem searchTools_limit_prefix r Q (L1 L2 : Z) :
  (0 <= L1 <= L2)%Z ->
  searchTools r Q (Some L1) = firstn (Z.to_nat L1) (searchTools r Q (Some L2)).
Proof.
  intros H. rewrite !searchTools_unfold, !slice0_nonneg by lia.
  rewrite firstn_map, firstn_firstn. do 2 f_equal. lia.
Qed.

Lemma searchTools_limit_prefix_witness :
  searchTools (run [sendMessage; banMember]) "a" (Some 1%Z)
  = firstn 1 (searchTools (run [sendMessage; banMember]) "a" (Some 20%Z)).
Proof.
  apply (searchTools_limit_prefix (run [sendMessage; banMember]) "a" 1 20). lia.
Defined.

(** * Further properties of the dispatch facade *)

(** X12: on every trace, list_tools(c) is error-flagged exactly when no
    registerTool call was made under the lowercase form of c as a
    predeclared category.  The error result has an empty tools payload, a
    text that enumerates the categories listCategories reports, and logs
    nothing; otherwise the payload is the listing of the category and one
    entry is logged with the number of tools. *)
Theorem list_tools_error_iff_nothing_registered calls c :
  (errorFlagged (fst (list_tools (run calls) c)) = true <->
   ~ (In (JsString.toLowerCase c) categoryNames /\
      exists call, In call calls /\
                   Registration.category call = JsString.toLowerCase c)) /\
  (errorFlagged (fst (list_tools (run calls) c)) = true ->
   list_tools (run calls) c
   = (Fulfilled
        (ToolResult.mk
           [TextContent
              ("Category '" ++ c ++
               "' not found or has no tools. Available categories: " ++
               JsString.join ", "
                 (map CategoryInfo.name (listCategories (run calls))))]
           (Some [("tools", JArr [])])
           (Some true)),
      [])) /\
  (errorFlagged (fst (list_tools (run calls) c)) = false ->
   payloadTools (fst (list_tools (run calls) c))
   = map summaryToJs (listTools (run calls) c) /\
   snd (list_tools (run calls) c)
   = [mkLogEntry LogInfo "Listed tools"
        [("category", JStr c);
         ("count",
          JNum (Z.of_nat (length (namesUnder (JsString.toLowerCase c) calls))))]]).
Proof.
  assert (Hnames : listTools (run calls) c = [] <->
                   ~ (In (JsString.toLowerCase c) categoryNames /\
                      exists call, In call calls /\
                        Registration.category call = JsString.toLowerCase c)).
  { destruct (in_dec string_dec (JsString.toLowerCase c) categoryNames) as [HC|HC].
    - rewrite (proj1 (listTools_run calls c) HC).
      destruct (namesUnder (JsString.toLowerCase c) calls) as [|n ns] eqn:E; simpl.
      + split; trivial. intros _ [_ (call & Hin & Hcat)].
        assert (Hn : In (Registration.name call)
                       (namesUnder (JsString.toLowerCase c) calls))
          by (apply namesUnder_In; eauto).
        rewrite E in Hn. destruct Hn.
      + split; [discriminate|]. intros H. exfalso. apply H. split; trivial.
        assert (Hn : In n (namesUnder (JsString.toLowerCase c) calls))
          by (rewrite E; now left).
        apply namesUnder_In in Hn as (call & Hin & _ & Hcat). eauto.
    - rewrite (proj2 (listTools_run calls c) HC). split; trivial. tauto. }
  assert (Hlen : In (JsString.toLowerCase c) categoryNames ->
                 length (listTools (run calls) c)
                 = length (namesUnder (JsString.toLowerCase c) calls)).
  { intros HC. now rewrite (proj1 (listTools_run calls c) HC), length_map. }
  unfold list_tools.
  destruct (listTools (run calls) c) as [|t ts] eqn:E.
  - split; [|split].
    + split; [intros _; now apply Hnames | reflexivity].
    + reflexivity.
    + intros H. cbn in H. discriminate.
  - split; [|split].
    + split; [intros H; cbn in H; discriminate|].
      intros H. apply Hnames in H. discriminate.
    + intros H. cbn in H. discriminate.
    + intros _. split; [reflexivity|]. cbn [snd]. do 4 f_equal.
      rewrite <- Hlen; trivial.
      destruct (in_dec string_dec (JsString.toLowerCase c) categoryNames) as [HC|HC];
        trivial.
      rewrite (proj2 (listTools_run calls c) HC) in E. discriminate.
Qed.

Lemma list_tools_error_iff_nothing_registered_witness :
  list_tools (run [sendMessage]) "stickers"
  = (Fulfilled
       (ToolResult.mk
          [TextContent
             ("Category 'stickers' not found or has no tools. " ++
              "Available categories: messaging")]
          (Some [("tools", JArr [])])
          (Some true)),
     []).
Proof.
  apply (proj1 (proj2 (list_tools_error_iff_nothing_registered [sendMessage] "stickers"))).
  reflexivity.
Defined.



(** X14: every tool that listTools or searchTools returns on a trace can
    be dispatched: its name has a handler and a schema entry with the
    description shown, execute_tool under that name logs the call and
    passes a resolved result through, and get_tool_schema does not answer
    with the not-found result. *)
Theorem discovered_tools_are_dispatchable calls e (stringify : JsVal -> string) :
  (exists c, In e (listTools (run calls) c)) \/
  (exists Q limit, In e (searchTools (run calls) Q limit)) ->
  exists h info,
    getHandler (run calls) (ToolSummary.name e) = Some h /\
    getToolSchema (run calls) (ToolSummary.name e) = Some info /\
    ToolInfo.description info = ToolSummary.description e /\
    (forall P R, h P = Resolves R ->
       fst (execute_tool (run calls) (ToolSummary.name e) P) = Fulfilled R) /\
    (forall P, exists rest,
       snd (execute_tool (run calls) (ToolSummary.name e) P)
       = mkLogEntry LogInfo "Executing tool"
           [("toolName", JStr (ToolSummary.name e)); ("params", P)] :: rest) /\
    snd (get_tool_schema (run calls) stringify (ToolSummary.name e))
    = [mkLogEntry LogInfo "Got tool schema"
         [("toolName", JStr (ToolSummary.name e))]].
Proof.
  intros Hfound.
  assert (Hentry : exists t,
             map_get (ToolSummary.name e) (tools (run calls)) = Some t /\
             ToolInfo.description (RegisteredTool.info t) = ToolSummary.description e).
  { destruct Hfound as [(c & Hin)|(Q & limit & Hin)].
    - destruct (in_dec string_dec (JsString.toLowerCase c) categoryNames) as [HC|HC].
      + rewrite (proj1 (listTools_run calls c) HC) in Hin.
        apply in_map_iff in Hin as (n & <- & Hn). simpl.
        apply namesUnder_In in Hn as (c0 & Hc0 & Hname & _).
        rewrite run_tools_lastCall.
        destruct (lastCall n calls) as [call|] eqn:E; simpl; [eauto|].
        exfalso. apply lastCall_None in E. apply E. eauto.
      + rewrite (proj2 (listTools_run calls c) HC) in Hin. destruct Hin.
    - apply searchTools_origin in Hin as ([k t] & Hin & _ & ->). simpl.
      apply In_map_get in Hin; [eauto | apply run_tools_NoDup]. }
  destruct Hentry as (t & Hget & Hdesc).
  exists (RegisteredTool.handler t), (RegisteredTool.info t).
  unfold getHandler, getToolSchema, execute_tool, get_tool_schema, getHandler,
    getToolSchema.
  rewrite Hget. repeat split; trivial.
  - intros P R HR. now rewrite HR.
  - intros P. destruct (RegisteredTool.handler t P) as [R|err|err|].
    + eexists. reflexivity.
    + destruct (executeCatch (ToolSummary.name e) err). eexists. reflexivity.
    + destruct (executeCatch (ToolSummary.name e) err). eexists. reflexivity.
    + eexists. reflexivity.
  - destruct (serializeSchema (ToolInfo.inputSchema (RegisteredTool.info t)));
      trivial.
    now destruct (serializeSchema (ToolInfo.outputSchema (RegisteredTool.info t))).
Qed.

Lemma discovered_tools_are_dispatchable_witness :
  exists h info,
    getHandler (run [sendMessage; banMember]) "ban_member" = Some h /\
    getToolSchema (run [sendMessage; banMember]) "ban_member" = Some info.
Proof.
  destruct (discovered_tools_are_dispatchable [sendMessage; banMember]
              (ToolSummary.mk "ban_member" "Ban a user from the server")
              js_to_string)
    as (h & info & Hh & Hi & _).
  - right. exists "ban", None. vm_compute. left. reflexivity.
  - exists h, info. split; [exact Hh | exact Hi].
Defined.

(** * Further properties of the schema serialization *)

Lemma wellFormed_unfold z def :
  Zod._def z = Some def ->
  wellFormed z =
  (let typeName := Zod.typeName def in
   if String.eqb typeName "ZodArray" then
     match Zod.type def with Some c => wellFormed c | None => false end
   else if String.eqb typeName "ZodObject" then
     match Zod.shape def with
     | Some fields => forallb (fun kv => wellFormed (snd kv)) fields
     | None => false
     end
   else if String.eqb typeName "ZodOptional" then
     match Zod.innerType def with Some c => wellFormed c | None => false end
   else if String.eqb typeName "ZodDefault" then
     match Zod.innerType def, Zod.defaultValue def with
     | Some c, Some _ => wellFormed c
     | _, _ => false
     end
   else if String.eqb typeName "ZodUnion" then
     match Zod.options def with
     | Some opts => forallb wellFormed opts
     | None => false
     end
   else if String.eqb typeName "ZodNullable" then
     match Zod.innerType def with Some c => wellFormed c | None => false end
   else true).
Proof. destruct z as [d]. simpl. intros ->. reflexivity. Qed.

Lemma zodSize_unfold z def :
  Zod._def z = Some def ->
  zodSize z =
  S (match Zod.innerType def with Some c => zodSize c | None => 0 end +
     match Zod.type def with Some c => zodSize c | None => 0 end +
     match Zod.shape def with
     | Some fields => list_sum (map (fun kv => zodSize (snd kv)) fields)
     | None => 0
     end +
     match Zod.options def with
     | Some opts => list_sum (map zodSize opts)
     | None => 0
     end).
Proof. destruct z as [d]. simpl. intros ->. reflexivity. Qed.

Lemma list_sum_In {A} (f : A -> nat) x l : In x l -> f x <= list_sum (map f l).
Proof.
  induction l as [|y l IH]; simpl; [tauto|].
  intros [->|Hin]; [lia | specialize (IH Hin); lia].
Qed.

Lemma mapM_total {A B} (f : A -> Completion B) l :
  (forall x, In x l -> exists y, f x = Normal y) ->
  exists ys, mapM f l = Normal ys.
Proof.
  induction l as [|x l IH]; intros H; simpl; [eauto|].
  destruct (H x (or_introl eq_refl)) as [y ->].
  destruct IH as [ys ->]; [intros; apply H; now right|].
  simpl. eauto.
Qed.

Lemma serializeLoop_total fields : forall acc,
  (forall kv, In kv fields -> exists s, zodToJsonSchema (snd kv) = Normal s) ->
  exists result, serializeLoop zodToJsonSchemaArg fields acc = Normal result.
Proof.
  induction fields as [|[k z] fields IH]; intros acc H; simpl; [eauto|].
  destruct (H (k, z) (or_introl eq_refl)) as [s Hs]. simpl in Hs. rewrite Hs. simpl.
  apply IH. intros kv Hkv. apply H. now right.
Qed.

Lemma zodToJsonSchema_total_bounded n : forall z,
  zodSize z <= n -> wellFormed z = true -> exists s, zodToJsonSchema z = Normal s.
Proof.
  induction n as [|n IH]; intros z Hsize Hwf;
    destruct (Zod._def z) as [def|] eqn:Hd;
    try (rewrite zodToJsonSchema_unfold, Hd; simpl; eauto; fail).
  - rewrite (zodSize_unfold _ _ Hd) in Hsize. lia.
  - rewrite (zodSize_unfold _ _ Hd) in Hsize.
    rewrite (wellFormed_unfold _ _ Hd) in Hwf.
    rewrite (zodToJsonSchema_def _ _ Hd).
    enough (Hk : exists schema, lowerByKind zodToJsonSchemaArg def = Normal schema)
      by (destruct Hk as [schema ->]; simpl; eauto).
    destruct (in_dec string_dec (Zod.typeName def) recognisedKinds) as [Hin|Hout];
      [|rewrite lowerByKind_fallback by trivial; eauto].
    simpl in Hin.
    destruct Hin as [Hk|[Hk|[Hk|[Hk|[Hk|[Hk|[Hk|[Hk|[Hk|[Hk|[]]]]]]]]]]];
      symmetry in Hk; rewrite Hk in Hwf; cbn -[wellFormed forallb] in Hwf.
    + rewrite lowerByKind_string; eauto.
    + rewrite lowerByKind_number; eauto.
    + rewrite lowerByKind_boolean; eauto.
    + rewrite lowerByKind_array by trivial. unfold handleZodArray.
      destruct (Zod.type def) as [c|]; [|discriminate].
      destruct (IH c) as [items Hitems]; [lia | trivial |].
      simpl. rewrite Hitems. simpl. eauto.
    + rewrite lowerByKind_object by trivial.
      destruct (Zod.shape def) as [fields|]; [|discriminate].
      destruct (serializeLoop_total fields []) as [props Hprops].
      { intros kv Hkv. apply IH.
        - pose proof (list_sum_In (fun kv => zodSize (snd kv)) kv fields Hkv). lia.
        - now apply (proj1 (forallb_forall _ _) Hwf). }
      unfold serializeSchemaWith. rewrite Hprops. simpl. eauto.
    + rewrite lowerByKind_optional by trivial. unfold handleZodWrapper.
      destruct (Zod.innerType def) as [c|]; [|discriminate].
      destruct (IH c) as [s Hs]; [lia | trivial |].
      simpl. rewrite Hs. simpl. eauto.
    + rewrite lowerByKind_default by trivial. unfold handleZodWrapper.
      destruct (Zod.innerType def) as [c|]; [|discriminate].
      destruct (Zod.defaultValue def) as [v|]; [|discriminate].
      destruct (IH c) as [s Hs]; [lia | trivial |].
      simpl. rewrite Hs. simpl. eauto.
    + rewrite lowerByKind_enum; eauto.
    + rewrite lowerByKind_union by trivial.
      destruct (Zod.options def) as [opts|]; [|discriminate].
      destruct (mapM_total zodToJsonSchema opts) as [lowered Hl].
      { intros c Hc. apply IH.
        - pose proof (list_sum_In zodSize c opts Hc). lia.
        - now apply (proj1 (forallb_forall _ _) Hwf). }
      rewrite mapM_walk, Hl. simpl. eauto.
    + rewrite lowerByKind_nullable by trivial. unfold handleZodWrapper.
      destruct (Zod.innerType def) as [c|]; [|discriminate].
      destruct (IH c) as [s Hs]; [lia | trivial |].
      simpl. rewrite Hs. simpl. eauto.
Qed.

(** X15: on a schema whose descriptors are built as the validation
    library builds them (arrays with an element type, objects with a
    shape, wrappers with an inner type, unions with options), whatever
    their kinds and checks, neither zodToJsonSchema nor serializeSchema
    throws. *)
Theorem serialization_never_throws_on_wellFormed :
  (forall z, wellFormed z = true -> exists s, zodToJsonSchema z = Normal s) /\
  (forall schema,
      forallb (fun kv => wellFormed (snd kv)) schema = true ->
      exists result, serializeSchema schema = Normal result).
Proof.
  split.
  - intros z. now apply (zodToJsonSchema_total_bounded (zodSize z)).
  - intros schema Hwf. apply serializeLoop_total. intros kv Hkv.
    apply (zodToJsonSchema_total_bounded (zodSize (snd kv))); trivial.
    now apply (proj1 (forallb_forall _ _) Hwf).
Qed.

Lemma serialization_never_throws_on_wellFormed_witness :
  exists result,
    serializeSchema [("tags", tagsField); ("when", zDate);
                     ("note", zOptional (zString []) None)]
    = Normal result.
Proof.
  apply (proj2 serialization_never_throws_on_wellFormed). reflexivity.
Defined.

Example wrapper_without_inner_type_throws :
  zodToJsonSchema
    (Zod.mkZodType
       (Some (Zod.mkZodDef "ZodOptional" None None None None None None None None
                None None)))
  = Throw TypeError.
Proof. reflexivity. Qed.

Lemma serializeLoop_keys entries : forall acc result,
  serializeLoop zodToJsonSchemaArg entries acc = Normal result ->
  NoDup (map fst entries) ->
  (forall k, In k (map fst entries) -> ~ In k (map_keys acc)) ->
  map_keys result = (map_keys acc ++ map fst entries)%list.
Proof.
  induction entries as [|[key zt] rest IH]; intros acc result; simpl.
  - intros [= <-] _ _. now rewrite app_nil_r.
  - destruct (zodToJsonSchema zt) as [lowered|e]; simpl; [|discriminate].
    intros Hloop Hnd Hfresh. inversion Hnd as [|? ? Hout Hnd']; subst.
    rewrite (IH _ _ Hloop Hnd').
    + rewrite map_keys_set_absent by (apply Hfresh; now left).
      now rewrite <- app_assoc.
    + intros k Hk. rewrite map_keys_set_absent by (apply Hfresh; now left).
      intros Hin. apply in_app_or in Hin as [Hin|[<-|[]]].
      * now apply (Hfresh k (or_intror Hk)).
      * contradiction.
Qed.

(** X16: when serializeSchema succeeds on a schema with distinct
    parameter names, the lowered object has exactly the parameter names of
    the schema as its keys, in the same order. *)
Theorem serializeSchema_keeps_parameter_names schema result :
  serializeSchema schema = Normal result ->
  NoDup (map fst schema) ->
  map_keys result = map fst schema.
Proof.
  intros Hs Hnd.
  apply (serializeLoop_keys schema [] result Hs Hnd). intros k _ [].
Qed.

Lemma serializeSchema_keeps_parameter_names_witness :
  map_keys [("tags", JObj [("type", JStr "array");
                           ("items", JObj [("type", JStr "string")]);
                           ("maxItems", JNum 5); ("minItems", JNum 1)]);
            ("when", JObj [("type", JStr "date")])]
  = map fst [("tags", tagsField); ("when", zDate)].
Proof.
  apply (serializeSchema_keeps_parameter_names [("tags", tagsField); ("when", zDate)]).
  - reflexivity.
  - repeat constructor; simpl; intuition discriminate.
Defined.

(** X17: an optional, nullable or default-valued wrapper keeps every
    property of the lowered inner schema: apart from the flag it sets and
    from the description, each property of the result is the property of
    the inner schema. *)
Theorem wrappers_keep_inner_properties z def inner s0 s :
  Zod._def z = Some def ->
  In (Zod.typeName def) ["ZodOptional"; "ZodNullable"; "ZodDefault"] ->
  Zod.innerType def = Some inner ->
  zodToJsonSchema inner = Normal s0 ->
  zodToJsonSchema z = Normal s ->
  forall k,
    ~ In k ["optional"; "nullable"; "default"; "description"] ->
    map_get k s = map_get k s0.
Proof.
  intros Hd Hk Hi Hs0 Hs k Hkey.
  rewrite (zodToJsonSchema_def _ _ Hd) in Hs.
  assert (Hne : k <> "optional" /\ k <> "nullable" /\ k <> "default" /\
                k <> "description") by (simpl in Hkey; intuition).
  destruct Hne as (H1 & H2 & H3 & H4).
  simpl in Hk. destruct Hk as [Hk|[Hk|[Hk|[]]]]; symmetry in Hk.
  - rewrite lowerByKind_optional in Hs by trivial.
    unfold handleZodWrapper in Hs. rewrite Hi in Hs. simpl in Hs.
    rewrite Hs0 in Hs. simpl in Hs. injection Hs as <-.
    rewrite describe_other by trivial. apply map_get_set_other. congruence.
  - rewrite lowerByKind_nullable in Hs by trivial.
    unfold handleZodWrapper in Hs. rewrite Hi in Hs. simpl in Hs.
    rewrite Hs0 in Hs. simpl in Hs. injection Hs as <-.
    rewrite describe_other by trivial. apply map_get_set_other. congruence.
  - rewrite lowerByKind_default in Hs by trivial.
    destruct (Zod.defaultValue def) as [v|]; [|discriminate].
    unfold handleZodWrapper in Hs. rewrite Hi in Hs. simpl in Hs.
    rewrite Hs0 in Hs. simpl in Hs. injection Hs as <-.
    rewrite describe_other by trivial. apply map_get_set_other. congruence.
Qed.

Lemma wrappers_keep_inner_properties_witness :
  map_get "maxLength"
    [("type", JStr "string"); ("maxLength", JNum 2000);
     ("optional", JBool true); ("description", JStr "Text")]
  = map_get "maxLength" [("type", JStr "string"); ("maxLength", JNum 2000)].
Proof.
  apply (wrappers_keep_inner_properties
           (zOptional (zString [ZodCheck.mk "max" (JNum 2000)]) (Some "Text"))
           (Zod.mkZodDef "ZodOptional" (Some "Text") None None
              (Some (zString [ZodCheck.mk "max" (JNum 2000)])) None None None
              None None None)
           (zString [ZodCheck.mk "max" (JNum 2000)])).
  - reflexivity.
  - simpl. tauto.
  - reflexivity.
  - reflexivity.
  - reflexivity.
  - simpl. intuition discriminate.
Defined.

Lemma saysWhatItIs_describe def s : saysWhatItIs s -> saysWhatItIs (describe def s).
Proof. unfold saysWhatItIs. now rewrite !describe_other by discriminate. Qed.

Lemma saysWhatItIs_wrapper def key v s :
  handleZodWrapper zodToJsonSchemaArg def [(key, v)] = Normal s ->
  key <> "type" -> key <> "oneOf" ->
  exists c s0,
    Zod.innerType def = Some c /\ zodToJsonSchema c = Normal s0 /\
    (saysWhatItIs s0 -> saysWhatItIs s).
Proof.
  unfold handleZodWrapper. intros Hs Ht Ho.
  destruct (Zod.innerType def) as [c|]; simpl in Hs; [|discriminate].
  destruct (zodToJsonSchema c) as [s0|e] eqn:Hw; simpl in Hs; [|discriminate].
  injection Hs as <-. exists c, s0. split; [reflexivity|]. split; [exact Hw|].
  unfold saysWhatItIs, assign. cbn [fold_left fst snd].
  rewrite !map_get_set_other by trivial. trivial.
Qed.

Lemma lowered_saysWhatItIs_bounded n : forall z s,
  zodSize z <= n -> zodToJsonSchema z = Normal s -> saysWhatItIs s.
Proof.
  induction n as [|n IH]; intros z s Hsize Hs;
    destruct (Zod._def z) as [def|] eqn:Hd;
    try (rewrite zodToJsonSchema_unfold, Hd in Hs; injection Hs as <-;
         left; discriminate).
  - rewrite (zodSize_unfold _ _ Hd) in Hsize. lia.
  - rewrite (zodSize_unfold _ _ Hd) in Hsize.
    rewrite (zodToJsonSchema_def _ _ Hd) in Hs.
    destruct (lowerByKind zodToJsonSchemaArg def) as [schema|e] eqn:Hk;
      simpl in Hs; [|discriminate].
    injection Hs as <-. apply saysWhatItIs_describe.
    destruct (in_dec string_dec (Zod.typeName def) recognisedKinds) as [Hin|Hout].
    2:{ rewrite lowerByKind_fallback in Hk by trivial. injection Hk as <-.
        left. discriminate. }
    simpl in Hin.
    destruct Hin as [Ht|[Ht|[Ht|[Ht|[Ht|[Ht|[Ht|[Ht|[Ht|[Ht|[]]]]]]]]]]];
      symmetry in Ht.
    + rewrite lowerByKind_string in Hk by trivial. injection Hk as <-. left.
      unfold handleZodString.
      rewrite (proj1 (fold_stringCheck (orEmpty (Zod.checks def)) _)). discriminate.
    + rewrite lowerByKind_number in Hk by trivial. injection Hk as <-. left.
      unfold handleZodNumber.
      rewrite (proj1 (fold_numberCheck (orEmpty (Zod.checks def)) _)).
      destruct (existsb _ _); discriminate.
    + rewrite lowerByKind_boolean in Hk by trivial. injection Hk as <-.
      left. discriminate.
    + rewrite lowerByKind_array in Hk by trivial. unfold handleZodArray in Hk.
      destruct (zodToJsonSchemaArg (Zod.type def)) as [items|e]; simpl in Hk;
        [|discriminate].
      injection Hk as <-. left.
      destruct (Zod.maxLength def), (Zod.minLength def); map_simpl; discriminate.
    + rewrite lowerByKind_object in Hk by trivial.
      destruct (Zod.shape def) as [fields|]; [|discriminate].
      destruct (serializeSchemaWith zodToJsonSchemaArg fields); simpl in Hk;
        [|discriminate].
      injection Hk as <-. left. discriminate.
    + rewrite lowerByKind_optional in Hk by trivial.
      apply saysWhatItIs_wrapper in Hk as (c & s0 & Hi & Hs0 & Himp);
        try discriminate.
      apply Himp, (IH c s0); trivial. rewrite Hi in Hsize. lia.
    + rewrite lowerByKind_default in Hk by trivial.
      destruct (Zod.defaultValue def) as [v|]; [|discriminate].
      apply saysWhatItIs_wrapper in Hk as (c & s0 & Hi & Hs0 & Himp);
        try discriminate.
      apply Himp, (IH c s0); trivial. rewrite Hi in Hsize. lia.
    + rewrite lowerByKind_enum in Hk by trivial. injection Hk as <-.
      left. discriminate.
    + rewrite lowerByKind_union in Hk by trivial.
      destruct (Zod.options def) as [opts|]; [|discriminate].
      destruct (mapM _ opts); simpl in Hk; [|discriminate].
      injection Hk as <-. right. discriminate.
    + rewrite lowerByKind_nullable in Hk by trivial.
      apply saysWhatItIs_wrapper in Hk as (c & s0 & Hi & Hs0 & Himp);
        try discriminate.
      apply Himp, (IH c s0); trivial. rewrite Hi in Hsize. lia.
Qed.

(** X18: whatever the descriptor, a schema that zodToJsonSchema lowers
    without throwing says what it is: it has a type property or, for a
    union, a oneOf property; wrappers and descriptions never remove it. *)
Theorem lowered_schema_has_type_or_oneOf z s :
  zodToJsonSchema z = Normal s ->
  map_get "type" s <> None \/ map_get "oneOf" s <> None.
Proof. apply (lowered_saysWhatItIs_bounded (zodSize z)). lia. Qed.

Lemma lowered_schema_has_type_or_oneOf_witness :
  map_get "type" [("type", JStr "string"); ("maxLength", JNum 2000);
                  ("optional", JBool true); ("description", JStr "Text")] <> None \/
  map_get "oneOf" [("type", JStr "string"); ("maxLength", JNum 2000);
                   ("optional", JBool true); ("description", JStr "Text")] <> None.
Proof.
  apply (lowered_schema_has_type_or_oneOf
           (zOptional (zString [ZodCheck.mk "max" (JNum 2000)]) (Some "Text"))).
  reflexivity.
Defined.

Lemma serializeSchema_total schema :
  forallb (fun kv => wellFormed (snd kv)) schema = true ->
  exists result, serializeSchema schema = Normal result.
Proof.
  intros Hwf. apply serializeLoop_total. intros kv Hkv.
  apply (zodToJsonSchema_total_bounded (zodSize (snd kv))); trivial.
  now apply (proj1 (forallb_forall _ _) Hwf).
Qed.

(** X19: for a registered tool whose two schemas are well-formed,
    get_tool_schema is fulfilled with a result that is not error-flagged;
    its structured payload carries the name, title, description and
    category of the registration and the two serialized schemas, and one
    entry is logged. *)
Theorem get_tool_schema_of_registered_tool r (stringify : JsVal -> string) N info :
  getToolSchema r N = Some info ->
  forallb (fun kv => wellFormed (snd kv)) (ToolInfo.inputSchema info) = true ->
  forallb (fun kv => wellFormed (snd kv)) (ToolInfo.outputSchema info) = true ->
  exists serializedInput serializedOutput text,
    serializeSchema (ToolInfo.inputSchema info) = Normal serializedInput /\
    serializeSchema (ToolInfo.outputSchema info) = Normal serializedOutput /\
    get_tool_schema r stringify N
    = (Fulfilled
         (ToolResult.mk
            [TextContent text]
            (Some [("name", JStr (ToolInfo.name info));
                   ("title", JStr (ToolInfo.title info));
                   ("description", JStr (ToolInfo.description info));
                   ("category", JStr (ToolInfo.category info));
                   ("inputSchema", JObj serializedInput);
                   ("outputSchema", JObj serializedOutput)])
            None),
       [mkLogEntry LogInfo "Got tool schema" [("toolName", JStr N)]]).
Proof.
  intros Hinfo Hin Hout.
  destruct (serializeSchema_total _ Hin) as [sin Hsin].
  destruct (serializeSchema_total _ Hout) as [sout Hsout].
  exists sin, sout. unfold get_tool_schema. rewrite Hinfo, Hsin, Hsout.
  eexists. repeat split.
Qed.

Lemma get_tool_schema_of_registered_tool_witness :
  exists serializedInput serializedOutput text,
    serializeSchema (Registration.inputSchema describeChannel) = Normal serializedInput /\
    serializeSchema (Registration.outputSchema describeChannel) = Normal serializedOutput /\
    get_tool_schema (run [describeChannel]) js_to_string "describe_channel"
    = (Fulfilled
         (ToolResult.mk
            [TextContent text]
            (Some [("name", JStr "describe_channel");
                   ("title", JStr "Describe Channel");
                   ("description", JStr "Describe a channel");
                   ("category", JStr "channels");
                   ("inputSchema", JObj serializedInput);
                   ("outputSchema", JObj serializedOutput)])
            None),
       [mkLogEntry LogInfo "Got tool schema" [("toolName", JStr "describe_channel")]]).
Proof.
  apply (get_tool_schema_of_registered_tool (run [describeChannel]) js_to_string
           "describe_channel" (infoOf describeChannel)); reflexivity.
Defined.

(** * The registration adapter *)

(** X20: the adapters of all categories write to one name table.  When a
    name is registered through an adapter bound to a predeclared category
    C1 and then through one bound to C2, the tool has the category, the
    description and the handler of the second registration, and it is
    listed under both categories, under C1 too with the description of
    the second registration. *)
Theorem adapters_share_the_name_table r N C1 C2 config1 config2 h1 h2 :
  reachable r ->
  In C1 categoryNames -> In C2 categoryNames ->
  let r' :=
    adapterRegisterTool (createRegistryAdapter C2)
      (adapterRegisterTool (createRegistryAdapter C1) r N config1 h1)
      N config2 h2 in
  getToolSchema r' N
  = Some (ToolInfo.mk N (ToolConfig.title config2) (ToolConfig.description config2)
            C2 (ToolConfig.inputSchema config2) (ToolConfig.outputSchema config2)) /\
  getHandler r' N = Some h2 /\
  In (ToolSummary.mk N (ToolConfig.description config2)) (listTools r' C1) /\
  In (ToolSummary.mk N (ToolConfig.description config2)) (listTools r' C2).
Proof.
  intros Hr H1 H2 r'. subst r'. unfold adapterRegisterTool, createRegistryAdapter.
  simpl RegistryAdapter.category. rewrite !registerTool_register.
  apply reachable_trace in Hr as [calls ->].
  set (c1 := Registration.mk N C1 _ _ _ _ h1).
  set (c2 := Registration.mk N C2 _ _ _ _ h2).
  rewrite <- !run_snoc.
  assert (Hlast : lastCall N ((calls ++ [c1]) ++ [c2]) = Some c2).
  { rewrite lastCall_snoc. simpl. now rewrite String.eqb_refl. }
  split; [|split; [|split]].
  - unfold getToolSchema. now rewrite run_tools_lastCall, Hlast.
  - unfold getHandler. now rewrite run_tools_lastCall, Hlast.
  - assert (Hl : JsString.toLowerCase C1 = C1) by now apply predeclared_lowercase.
    assert (H1' : In (JsString.toLowerCase C1) categoryNames) by now rewrite Hl.
    rewrite (proj1 (listTools_run _ C1) H1'), Hl.
    apply in_map_iff. exists N. rewrite Hlast. split; trivial.
    apply namesUnder_In. exists c1. repeat split.
    apply in_or_app. left. apply in_or_app. right. now left.
  - assert (Hl : JsString.toLowerCase C2 = C2) by now apply predeclared_lowercase.
    assert (H2' : In (JsString.toLowerCase C2) categoryNames) by now rewrite Hl.
    rewrite (proj1 (listTools_run _ C2) H2'), Hl.
    apply in_map_iff. exists N. rewrite Hlast. split; trivial.
    apply namesUnder_In. exists c2. repeat split.
    apply in_or_app. right. now left.
Qed.

Lemma adapters_share_the_name_table_witness :
  In (ToolSummary.mk "kick" "Remove a role from everybody")
     (listTools
        (adapterRegisterTool (createRegistryAdapter "roles")
           (adapterRegisterTool (createRegistryAdapter "moderation")
              newToolRegistry "kick" kickConfig sampleHandler)
           "kick" kickRoleConfig sampleHandler)
        "moderation").
Proof.
  apply (adapters_share_the_name_table newToolRegistry "kick" "moderation" "roles"
           kickConfig kickRoleConfig sampleHandler sampleHandler).
  - constructor.
  - simpl. tauto.
  - simpl. tauto.
Defined.

(** * The logger *)

Lemma assign_get props : forall (target : JsObject) k,
  NoDup (map_keys props) ->
  map_get k (assign target props) =
  match map_get k props with
  | Some v => Some v
  | None => map_get k target
  end.
Proof.
  unfold assign.
  induction props as [|[k0 v0] props IH]; intros target k Hnd; simpl; trivial.
  inversion Hnd as [|? ? Hout Hnd']; subst. rewrite IH by trivial.
  destruct (String.eqb_spec k0 k) as [->|Hne].
  - apply map_get_None_keys in Hout. rewrite Hout. apply map_get_set_same.
  - destruct (map_get k props); trivial. now apply map_get_set_other.
Qed.

(** X21: the logger writes a line exactly for the levels at or above its
    configured level in the order debug, info, warn, error, and then
    exactly one line; an error is written at every configuration. *)
Theorem logger_level_filter (stringify : JsVal -> string) (ts : string)
    lg l message metadata :
  shouldLog lg l = (levelRank (Logger.level lg) <=? levelRank l)%nat /\
  (log stringify ts lg l message metadata = [] <->
   levelRank l < levelRank (Logger.level lg)) /\
  (levelRank (Logger.level lg) <= levelRank l ->
   exists line, log stringify ts lg l message metadata = [line]) /\
  log stringify ts lg LogError message metadata <> [].
Proof.
  assert (Hs : forall l', shouldLog lg l'
                          = (levelRank (Logger.level lg) <=? levelRank l')%nat).
  { intros l'. destruct lg as [lv fmt]. now destruct lv, l'. }
  split; [apply Hs|]. unfold log. rewrite !Hs.
  split; [|split].
  - destruct (Nat.leb_spec (levelRank (Logger.level lg)) (levelRank l)); simpl.
    + split; [|lia]. now destruct (Logger.format lg).
    + tauto.
  - intros Hle. apply Nat.leb_le in Hle. rewrite Hle. simpl.
    destruct (Logger.format lg); eauto.
  - assert (Hle : (levelRank (Logger.level lg) <=? levelRank LogError)%nat = true)
      by (apply Nat.leb_le; destruct (Logger.level lg); simpl; lia).
    rewrite Hle. simpl. now destruct (Logger.format lg).
Qed.

Lemma logger_level_filter_witness :
  exists line,
    log js_to_string "2026-01-01T00:00:00.000Z" (Logger.mk LogInfo FormatPretty)
      LogWarn "slow reply" None = [line].
Proof.
  apply (logger_level_filter js_to_string "2026-01-01T00:00:00.000Z"
           (Logger.mk LogInfo FormatPretty) LogWarn "slow reply" None).
  simpl. lia.
Defined.

(** X22: in the JSON format the object written is the entry
    {timestamp, level, message} overlaid with the metadata: every key of
    the metadata carries the metadata's value, also when the key is
    timestamp, level or message, and every other key keeps the logger's
    value. *)
Theorem logger_metadata_overrides_entry (stringify : JsVal -> string) (ts : string)
    lg l message metadata :
  Logger.format lg = FormatJson ->
  shouldLog lg l = true ->
  NoDup (map_keys metadata) ->
  exists entry,
    log stringify ts lg l message (Some metadata) = [stringify (JObj entry)] /\
    (forall k v, map_get k metadata = Some v -> map_get k entry = Some v) /\
    (forall k, map_get k metadata = None ->
       map_get k entry =
       map_get k [("timestamp", JStr ts); ("level", JStr (levelName l));
                  ("message", JStr message)]).
Proof.
  intros Hfmt Hlog Hnd. unfold log. rewrite Hlog, Hfmt. simpl negb. cbv iota.
  eexists. split; [reflexivity|]. split.
  - intros k v Hk. now rewrite assign_get, Hk.
  - intros k Hk. now rewrite assign_get, Hk.
Qed.

Lemma logger_metadata_overrides_entry_witness :
  exists entry,
    log js_to_string "2026-01-01T00:00:00.000Z" (Logger.mk LogInfo FormatJson)
      LogError "Tool execution failed"
      (Some [("toolName", JStr "send_message"); ("message", JStr "socket closed")])
    = [js_to_string (JObj entry)] /\
    map_get "message" entry = Some (JStr "socket closed").
Proof.
  destruct (logger_metadata_overrides_entry js_to_string "2026-01-01T00:00:00.000Z"
              (Logger.mk LogInfo FormatJson) LogError "Tool execution failed"
              [("toolName", JStr "send_message"); ("message", JStr "socket closed")])
    as (entry & Hlog & Hmeta & _).
  - reflexivity.
  - reflexivity.
  - repeat constructor; simpl; intuition discriminate.
  - exists entry. split; [exact Hlog | now apply Hmeta].
Defined.

(** X23: what execute_tool writes through a logger.  An unknown tool
    name writes nothing at any level; a handler result passed through
    writes one line when the logger is at debug or info and none above;
    a contained fault writes one line more, at every level. *)
Theorem execute_tool_console_lines (stringify : JsVal -> string) (ts : string)
    lg r N P :
  (getHandler r N = None ->
   emit stringify ts lg (snd (execute_tool r N P)) = []) /\
  (forall h R,
      getHandler r N = Some h -> h P = Resolves R ->
      length (emit stringify ts lg (snd (execute_tool r N P)))
      = if (levelRank (Logger.level lg) <=? 1)%nat then 1 else 0) /\
  (forall h e m,
      getHandler r N = Some h ->
      h P = ThrowsSync e \/ h P = Rejects e ->
      get_prop e "message" = Some m ->
      length (emit stringify ts lg (snd (execute_tool r N P)))
      = (if (levelRank (Logger.level lg) <=? 1)%nat then 1 else 0) + 1).
Proof.
  assert (Hinfo : forall msg meta,
             length (log stringify ts lg LogInfo msg (Some meta))
             = if (levelRank (Logger.level lg) <=? 1)%nat then 1 else 0).
  { intros msg meta. unfold log. destruct lg as [[] []]; reflexivity. }
  assert (Herr : forall msg meta,
             length (log stringify ts lg LogError msg (Some meta)) = 1).
  { intros msg meta. unfold log. destruct lg as [[] []]; reflexivity. }
  unfold execute_tool. split; [|split].
  - intros ->. reflexivity.
  - intros h R -> ->. unfold emit. cbn [snd flat_map level message metadata].
    now rewrite app_nil_r, Hinfo.
  - intros h e m -> He Hm. unfold executeCatch.
    destruct He as [-> | ->]; rewrite Hm; unfold emit;
      cbn [snd flat_map app level message metadata];
      now rewrite app_nil_r, length_app, Hinfo, Herr.
Qed.

Lemma execute_tool_console_lines_witness :
  length (emit js_to_string "2026-01-01T00:00:00.000Z" (Logger.mk LogWarn FormatJson)
            (snd (execute_tool
                    (registerTool newToolRegistry "send_message" "messaging"
                       "Send Message" "Send a message" [] []
                       (fun _ => ThrowsSync (js_Error "socket closed")))
                    "send_message" (JObj []))))
  = 1.
Proof.
  apply (proj2 (proj2 (execute_tool_console_lines js_to_string
                         "2026-01-01T00:00:00.000Z" (Logger.mk LogWarn FormatJson)
                         (registerTool newToolRegistry "send_message" "messaging"
                            "Send Message" "Send a message" [] []
                            (fun _ => ThrowsSync (js_Error "socket closed")))
                         "send_message" (JObj [])))
           (fun _ => ThrowsSync (js_Error "socket closed"))
           (js_Error "socket closed") (JStr "socket closed"));
    [reflexivity | now left | reflexivity].
Defined.

(** * Error utilities *)

(** X24: getErrorMessage extends the read of error.message that
    execute_tool's catch clause performs.  Where that read yields a
    string, getErrorMessage returns the same string; where the read
    throws (null, undefined) it returns "Unknown error"; a caught string
    is returned itself; and getErrorDetails reports the same message, with
    a stack only for an Error instance. *)
Theorem getErrorMessage_extends_message_read error :
  (forall s, get_prop (caughtToJs error) "message" = Some (JStr s) ->
             getErrorMessage error = s) /\
  (get_prop (caughtToJs error) "message" = None ->
   getErrorMessage error = "Unknown error") /\
  (forall s, error = OtherValue (JStr s) -> getErrorMessage error = s) /\
  ErrorDetails.message (getErrorDetails error) = getErrorMessage error /\
  (ErrorDetails.stack (getErrorDetails error) <> None ->
   exists message stack, error = ErrorInstance message (Some stack)).
Proof.
  repeat apply conj.
  - intros s. destruct error as [message stack|v]; simpl.
    + now intros [= ->].
    + destruct v as [| | | | |items|props]; simpl; try discriminate.
      destruct (map_get "message" props) as [[]|]; simpl; intros [= <-];
        reflexivity.
  - destruct error as [message stack|[]]; simpl; trivial; discriminate.
  - now intros s ->.
  - now destruct error.
  - destruct error as [message [stack|]|v]; simpl; eauto; tauto.
Qed.

Lemma getErrorMessage_extends_message_read_witness :
  getErrorMessage (ErrorInstance "Channel not found: 42" None)
  = "Channel not found: 42" /\
  getErrorMessage (OtherValue JNull) = "Unknown error".
Proof.
  split.
  - apply (proj1 (getErrorMessage_extends_message_read
                    (ErrorInstance "Channel not found: 42" None))).
    reflexivity.
  - apply (proj1 (proj2 (getErrorMessage_extends_message_read (OtherValue JNull)))).
    reflexivity.
Defined.

(** * Discovery, from categories to tools *)

Lemma listed_category_length calls info :
  In info (listCategories (run calls)) ->
  0 < CategoryInfo.toolCount info /\
  length (listTools (run calls) (CategoryInfo.name info)) = CategoryInfo.toolCount info.
Proof.
  rewrite listCategories_run. intros Hin.
  apply filter_In in Hin as [Hin Hpos]. apply Nat.ltb_lt in Hpos.
  split; trivial.
  apply in_map_iff in Hin as ([C d] & <- & Hdef). simpl in *.
  assert (HC : In C categoryNames)
    by (change C with (fst (C, d)); now apply in_map).
  assert (Hlow : In (JsString.toLowerCase C) categoryNames)
    by now rewrite predeclared_lowercase.
  rewrite (proj1 (listTools_run calls C) Hlow), length_map.
  now rewrite predeclared_lowercase.
Qed.

(** X25: list_categories is fulfilled, never error-flagged, with the
    categories of listCategories as payload; and every category it
    returns (the same categories list_tools suggests in its error text) is
    accepted by list_tools, which then returns as many tools as the
    category's toolCount. *)
Theorem listed_categories_are_accepted_by_list_tools calls :
  (exists text,
      list_categories (run calls)
      = (Fulfilled
           (ToolResult.mk
              [TextContent text]
              (Some [("categories",
                      JArr (map categoryToJs (listCategories (run calls))))])
              None),
         [mkLogEntry LogInfo "Listed categories"
            [("count", JNum (Z.of_nat (length (listCategories (run calls)))))]])) /\
  (forall info,
      In info (listCategories (run calls)) ->
      errorFlagged (fst (list_tools (run calls) (CategoryInfo.name info))) = false /\
      length (payloadTools (fst (list_tools (run calls) (CategoryInfo.name info))))
      = CategoryInfo.toolCount info).
Proof.
  split; [eexists; reflexivity|].
  intros info Hin. apply listed_category_length in Hin as [Hpos Hlen].
  unfold list_tools.
  destruct (listTools (run calls) (CategoryInfo.name info)) as [|t ts].
  - simpl in Hlen. lia.
  - split; [reflexivity|]. cbn [fst payloadTools ToolResult.structuredContent map_get].
    simpl. rewrite length_map. simpl in Hlen. lia.
Qed.

Lemma listed_categories_are_accepted_by_list_tools_witness :
  errorFlagged (fst (list_tools (run [sendMessage; banMember]) "moderation")) = false.
Proof.
  apply (proj2 (listed_categories_are_accepted_by_list_tools [sendMessage; banMember])
           (CategoryInfo.mk "moderation"
              "Kick, ban, unban, timeout members. View ban list." 1)).
  vm_compute. right. left. reflexivity.
Defined.
